(** * Announcements endpoints of the High School Management System API

    A shallow embedding of [src/backend/routers/announcements.py]: the five
    request handlers, written over explicit models of what they call
    (the document store, the teacher directory, the system clock,
    [bson.ObjectId] and [datetime]), followed by the properties of the
    written specification that were checked against them. What the
    handlers leave to their environment is a parameter of the model: the
    order in which the store sorts ties ([sorter]) and the texts
    [datetime.fromisoformat] reads, which differ between versions of Python
    ([DatetimeModule]). *)

From Stdlib Require Import ZArith Ascii.
From stdpp Require Import base option list gmap strings sorting.

Local Open Scope Z_scope.
Set Warnings "-register-all".

(** ** Values held by documents *)

(** [bson.ObjectId]: the wrapped bytes ([ObjectId.binary]). *)
Record ObjectId := mkObjectId { binary : string }.

(** The two kinds of value the handlers store and query. *)
Inductive bson :=
  | BStr (s : string)
  | BOid (o : ObjectId).

Global Instance ObjectId_eq_dec : EqDecision ObjectId.
Proof. solve_decision. Defined.

Global Instance bson_eq_dec : EqDecision bson.
Proof. solve_decision. Defined.

(** A Python [dict] with string keys. *)
Abbreviation dict := (gmap string bson).

(** *** Hexadecimal text (bytes.fromhex, binascii.hexlify) *)

Definition hex_value (c : ascii) : option N :=
  let n := N_of_ascii c in
  if ((48 <=? n) && (n <=? 57))%N then Some (n - 48)%N
  else if ((97 <=? n) && (n <=? 102))%N then Some (n - 87)%N
  else if ((65 <=? n) && (n <=? 70))%N then Some (n - 55)%N
  else None.

Definition hex_char (n : N) : ascii :=
  if (n <? 10)%N then ascii_of_N (48 + n) else ascii_of_N (87 + n).

(** [bytes.fromhex]: two hexadecimal digits per byte, ASCII whitespace
    skipped in front of a byte; [None] stands for its [ValueError]. *)
Fixpoint fromhex (s : string) : option string :=
  match s with
  | EmptyString => Some EmptyString
  | String c rest =>
      if Ascii.is_space c then fromhex rest
      else
        match rest with
        | EmptyString => None
        | String d rest' =>
            match hex_value c, hex_value d with
            | Some top, Some bot =>
                String (ascii_of_N (16 * top + bot)) <$> fromhex rest'
            | _, _ => None
            end
        end
  end.

(** [binascii.hexlify(b).decode()] *)
Fixpoint hexlify (b : string) : string :=
  match b with
  | EmptyString => EmptyString
  | String c rest =>
      let n := N_of_ascii c in
      String (hex_char (n / 16)) (String (hex_char (n mod 16)) (hexlify rest))
  end.

(** [ObjectId(oid)] on a [str]: the text must have 24 characters and be
    accepted by [bytes.fromhex]; [None] stands for [bson.errors.InvalidId]. *)
Definition ObjectId_of_str (oid : string) : option ObjectId :=
  if decide (String.length oid = 24%nat) then mkObjectId <$> fromhex oid
  else None.

(** [str(x)] on the values a document holds. *)
Definition str (v : bson) : string :=
  match v with
  | BStr s => s
  | BOid o => hexlify (binary o)
  end.

(** *** The order of values in queries and sorts *)

(** Strings and ObjectIds compare by their bytes; a comparison operator only
    matches values of the type of its operand. *)
Definition bson_leb (x y : bson) : bool :=
  match x, y with
  | BStr a, BStr b => String.leb a b
  | BOid a, BOid b => String.leb (binary a) (binary b)
  | _, _ => false
  end.

(** The sort order of a key: a missing field first, then strings, then
    ObjectIds. *)
Definition key_leb (x y : option bson) : bool :=
  match x, y with
  | None, _ => true
  | Some _, None => false
  | Some (BStr a), Some (BStr b) => String.leb a b
  | Some (BStr _), Some (BOid _) => true
  | Some (BOid _), Some (BStr _) => false
  | Some (BOid a), Some (BOid b) => String.leb (binary a) (binary b)
  end.

(** ** Queries and updates *)

Inductive cond :=
  | c_eq (v : bson)          (* {field: v} *)
  | c_gte (v : bson)         (* {field: {"$gte": v}} *)
  | c_lte (v : bson)         (* {field: {"$lte": v}} *)
  | c_exists (b : bool).     (* {field: {"$exists": b}} *)

Inductive query :=
  | q_field (k : string) (c : cond)
  | q_and (qs : list query)  (* {"$and": [...]}; [q_and []] is the filter {} *)
  | q_or (qs : list query).  (* {"$or": [...]} *)

Definition cond_holds (c : cond) (x : option bson) : bool :=
  match c, x with
  | c_eq v, Some y => bool_decide (y = v)
  | c_gte v, Some y => bson_leb v y
  | c_lte v, Some y => bson_leb y v
  | c_exists b, Some _ => b
  | c_exists b, None => negb b
  | _, None => false
  end.

Fixpoint matches (q : query) (d : dict) : bool :=
  match q with
  | q_field k c => cond_holds c (d !! k)
  | q_and qs => forallb (fun q' => matches q' d) qs
  | q_or qs => existsb (fun q' => matches q' d) qs
  end.

Inductive update :=
  | u_set (fields : dict)     (* {"$set": fields} *)
  | u_unset (fields : dict).  (* {"$unset": fields} *)

(** ** Collections *)

(** A stored document always has an [_id]; the other fields are free. *)
Record document := mkDocument { doc_id : bson; doc_fields : dict }.

(** The [dict] a driver call hands back for a stored document. *)
Definition as_dict (d : document) : dict := <["_id" := doc_id d]> (doc_fields d).

Abbreviation collection := (list document).

Definition doc_matches (q : query) (d : document) : bool := matches q (as_dict d).

(** [collection.find(q)], in the order the documents are stored. *)
Definition find (q : query) (c : collection) : list dict :=
  as_dict <$> filter (fun d => doc_matches q d = true) c.

(** [collection.find_one(q)] *)
Definition find_one (q : query) (c : collection) : option dict :=
  head (find q c).

(** [collection.insert_one(doc)] with the [_id] the driver generated. *)
Definition insert_one (new_id : ObjectId) (doc : dict) (c : collection) : collection :=
  c ++ [mkDocument (BOid new_id) (delete "_id" doc)].

Definition apply_update (u : update) (d : document) : document :=
  match u with
  | u_set fields => mkDocument (doc_id d) (delete "_id" fields ∪ doc_fields d)
  | u_unset fields =>
      mkDocument (doc_id d)
        (filter (fun kv => fields !! kv.1 = None) (doc_fields d))
  end.

(** [collection.update_one(q, u)]: the first document that matches. *)
Fixpoint update_one (q : query) (u : update) (c : collection) : collection :=
  match c with
  | [] => []
  | d :: rest =>
      if doc_matches q d then apply_update u d :: rest
      else d :: update_one q u rest
  end.

(** [collection.delete_one(q)]: what is left, and [deleted_count]. *)
Fixpoint delete_one (q : query) (c : collection) : collection * Z :=
  match c with
  | [] => ([], 0)
  | d :: rest =>
      if doc_matches q d then (rest, 1)
      else let '(rest', n) := delete_one q rest in (d :: rest', n)
  end.

(** *** Sorted cursors *)

(** [direction] is pymongo's: [-1] descending, [1] ascending. *)
Definition ordered_by (key : string) (direction : Z) : relation dict :=
  fun a b =>
    if direction <? 0 then key_leb (b !! key) (a !! key) = true
    else key_leb (a !! key) (b !! key) = true.

(** [cursor.sort(key, direction)]. The store promises a rearrangement of the
    documents found that is ordered on the key, and nothing on the relative
    order of documents with equal keys: the handlers are written over any
    sort that keeps this promise. *)
Record sorter := mkSorter {
  sort : string -> Z -> list dict -> list dict;
  sort_Permutation : forall key direction l, sort key direction l ≡ₚ l;
  sort_Sorted : forall key direction l, Sorted (ordered_by key direction) (sort key direction l)
}.

(** ** Exceptions *)

Inductive exn :=
  | HTTPException (status_code : Z) (detail : string)
  | ValueError
  | TypeError
  | KeyError
  | InvalidId.

Global Instance exn_eq_dec : EqDecision exn.
Proof. solve_decision. Defined.

Inductive outcome (A : Type) :=
  | Return (a : A)
  | Raise (e : exn).
Arguments Return {A} a.
Arguments Raise {A} e.

(** ** datetime *)

(** [tzinfo] is the UTC offset in microseconds of an aware datetime, [None]
    for a naive one. *)
Record datetime := mkDatetime {
  year : Z; month : Z; day : Z;
  hour : Z; minute : Z; second : Z; microsecond : Z;
  tzinfo : option Z
}.

Definition is_leap (y : Z) : bool :=
  (y mod 4 =? 0) && (negb (y mod 100 =? 0) || (y mod 400 =? 0)).

Definition days_in_month (y m : Z) : Z :=
  if m =? 2 then (if is_leap y then 29 else 28)
  else if (m =? 4) || (m =? 6) || (m =? 9) || (m =? 11) then 30
  else 31.

Definition days_before_year (y : Z) : Z :=
  let y' := y - 1 in y' * 365 + y' / 4 - y' / 100 + y' / 400.

Definition days_before_month (y m : Z) : Z :=
  nth (Z.to_nat m) [-1; 0; 31; 59; 90; 120; 151; 181; 212; 243; 273; 304; 334] 0
  + (if (2 <? m) && is_leap y then 1 else 0).

Definition ymd2ord (y m d : Z) : Z :=
  days_before_year y + days_before_month y m + d.

(** The constructor's range checks ([None] stands for its [ValueError]). *)
Definition new_datetime (y mo d h mi s us : Z) (tz : option Z) : option datetime :=
  if (1 <=? y) && (y <=? 9999) && (1 <=? mo) && (mo <=? 12)
     && (1 <=? d) && (d <=? days_in_month y mo)
     && (0 <=? h) && (h <=? 23) && (0 <=? mi) && (mi <=? 59)
     && (0 <=? s) && (s <=? 59) && (0 <=? us) && (us <=? 999999)
  then Some (mkDatetime y mo d h mi s us tz)
  else None.

(** The ranges the datetime constructor checks on the fields below the
    year. *)
Definition in_range (t : datetime) : Prop :=
  1 ≤ month t ≤ 12 ∧ 1 ≤ day t ≤ days_in_month (year t) (month t)
  ∧ 0 ≤ hour t ≤ 23 ∧ 0 ≤ minute t ≤ 59 ∧ 0 ≤ second t ≤ 59
  ∧ 0 ≤ microsecond t ≤ 999999.

(** *** Comparison *)

Fixpoint tuple_compare (a b : list Z) : comparison :=
  match a, b with
  | [], [] => Eq
  | [], _ :: _ => Lt
  | _ :: _, [] => Gt
  | x :: a', y :: b' =>
      match x ?= y with
      | Eq => tuple_compare a' b'
      | c => c
      end
  end.

Definition fields_of (t : datetime) : list Z :=
  [year t; month t; day t; hour t; minute t; second t; microsecond t].

(** Microseconds from the start of day 0 of the calendar to the date and
    time the fields show. *)
Definition wall_microseconds (t : datetime) : Z :=
  ((ymd2ord (year t) (month t) (day t) * 24 + hour t) * 60 + minute t) * 60000000
  + second t * 1000000 + microsecond t.

(** The same instant in UTC: the offset is taken off. *)
Definition utc_microseconds (t : datetime) : Z :=
  wall_microseconds t - default 0 (tzinfo t).

(** [datetime._cmp]: equal offsets (or two naive values) compare by their
    fields, a naive and an aware value do not compare. *)
Definition datetime_cmp (a b : datetime) : outcome comparison :=
  if decide (tzinfo a = tzinfo b) then Return (tuple_compare (fields_of a) (fields_of b))
  else
    match tzinfo a, tzinfo b with
    | Some _, Some _ => Return (utc_microseconds a ?= utc_microseconds b)
    | _, _ => Raise TypeError
    end.

(** [a <= b] *)
Definition datetime_le (a b : datetime) : outcome bool :=
  match datetime_cmp a b with
  | Return Gt => Return false
  | Return _ => Return true
  | Raise e => Raise e
  end.

(** *** Text *)

Definition digit_value (c : ascii) : option Z :=
  let n := N_of_ascii c in
  if ((48 <=? n) && (n <=? 57))%N then Some (Z.of_N n - 48) else None.

(** The number written by the first [n] characters, all of them digits. *)
Fixpoint parse_digits (n : nat) (acc : Z) (s : string) : option (Z * string) :=
  match n with
  | O => Some (acc, s)
  | S n' =>
      match s with
      | String c rest =>
          match digit_value c with
          | Some d => parse_digits n' (10 * acc + d) rest
          | None => None
          end
      | EmptyString => None
      end
  end.

Definition expect (c : ascii) (s : string) : option string :=
  match s with
  | String c' rest => if decide (c' = c) then Some rest else None
  | EmptyString => None
  end.

(** [.fff[fff]] *)
Definition parse_fraction (s : string) : option Z :=
  match String.length s with
  | 3%nat => '(us, _) ← parse_digits 3 0 s; Some (us * 1000)
  | 6%nat => '(us, _) ← parse_digits 6 0 s; Some us
  | _ => None
  end.

(** [HH[:MM[:SS[.fff[fff]]]]], the whole text. *)
Definition parse_hh_mm_ss_ff (s : string) : option (Z * Z * Z * Z) :=
  '(h, s1) ← parse_digits 2 0 s;
  match s1 with
  | EmptyString => Some (h, 0, 0, 0)
  | _ =>
      s1' ← expect ":" s1;
      '(mi, s2) ← parse_digits 2 0 s1';
      match s2 with
      | EmptyString => Some (h, mi, 0, 0)
      | _ =>
          s2' ← expect ":" s2;
          '(sec, s3) ← parse_digits 2 0 s2';
          match s3 with
          | EmptyString => Some (h, mi, sec, 0)
          | _ => s3' ← expect "." s3; us ← parse_fraction s3'; Some (h, mi, sec, us)
          end
      end
  end.

(** The text up to the first sign, the sign, and the text after it. *)
Fixpoint split_at_sign (s : string) : string * option (ascii * string) :=
  match s with
  | EmptyString => (EmptyString, None)
  | String c rest =>
      if decide (c = "+"%char) then (EmptyString, Some (c, rest))
      else if decide (c = "-"%char) then (EmptyString, Some (c, rest))
      else let '(t, z) := split_at_sign rest in (String c t, z)
  end.

Definition parse_offset (sign : ascii) (s : string) : option Z :=
  let n := String.length s in
  if decide (n = 5%nat ∨ n = 8%nat ∨ n = 15%nat) then
    '(h, mi, sec, us) ← parse_hh_mm_ss_ff s;
    let off := ((h * 60 + mi) * 60 + sec) * 1000000 + us in
    if off <? 86400000000 then
      Some (if decide (sign = "-"%char) then - off else off)
    else None
  else None.

(** The format [datetime.fromisoformat] is documented to read since
    Python 3.7, which is what [isoformat] writes:
    [YYYY-MM-DD[*HH[:MM[:SS[.fff[fff]]]][+HH:MM[:SS[.ffffff]]]]].
    A text in this format is read the same way by every version. On any
    other text this function answers [None]; an interpreter may read such
    a text (from 3.11 on: dates without hyphens, week dates, fractions of
    other lengths, offsets without a colon). *)
Definition fromisoformat_documented (s : string) : option datetime :=
  '(y, s1) ← parse_digits 4 0 s;
  s1' ← expect "-" s1;
  '(mo, s2) ← parse_digits 2 0 s1';
  s2' ← expect "-" s2;
  '(d, s3) ← parse_digits 2 0 s2';
  match s3 with
  | EmptyString => new_datetime y mo d 0 0 0 0 None
  | String _ tstr =>
      let '(clock, zone) := split_at_sign tstr in
      '(h, mi, sec, us) ← parse_hh_mm_ss_ff clock;
      match zone with
      | None => new_datetime y mo d h mi sec us None
      | Some (sign, z) => off ← parse_offset sign z; new_datetime y mo d h mi sec us (Some off)
      end
  end.

(** [datetime.fromisoformat], as the interpreter that runs the service
    provides it; [None] stands for its [ValueError]. The handlers are
    written over this function whatever texts it reads; all that is known
    of the datetimes it returns is that the constructor built them. *)
Class DatetimeModule := {
  fromisoformat : string → option datetime;
  fromisoformat_in_range : ∀ s t, fromisoformat s = Some t → in_range t
}.

Lemma new_datetime_in_range (y mo d h mi s us : Z) (tz : option Z) (t : datetime) :
  new_datetime y mo d h mi s us tz = Some t → in_range t.
Proof.
  unfold new_datetime, in_range. case_match eqn:Hc; [|done]. intros [= <-]. simpl.
  repeat (apply andb_true_iff in Hc as [Hc ?]). lia.
Qed.

Lemma fromisoformat_documented_in_range (s : string) (t : datetime) :
  fromisoformat_documented s = Some t → in_range t.
Proof.
  unfold fromisoformat_documented. intros H.
  repeat (simplify_option_eq || case_match); eauto using new_datetime_in_range.
Qed.

(** An interpreter that reads the documented format and nothing else: the
    one the examples are run with. *)
Definition documented_format : DatetimeModule :=
  {| fromisoformat := fromisoformat_documented;
     fromisoformat_in_range := fromisoformat_documented_in_range |}.

(** [n] written with [width] decimal digits (the fields of a datetime fit). *)
Fixpoint zero_padded (width : nat) (n : Z) : string :=
  match width with
  | O => EmptyString
  | S w => zero_padded w (n / 10) +:+ String (ascii_of_N (48 + Z.to_N (n mod 10))) EmptyString
  end.

Definition format_offset (off : Z) : string :=
  let a := Z.abs off in
  (if off <? 0 then "-" else "+")
  +:+ zero_padded 2 (a / 3600000000) +:+ ":" +:+ zero_padded 2 (a / 60000000 mod 60)
  +:+ (if a mod 60000000 =? 0 then EmptyString
       else ":" +:+ zero_padded 2 (a / 1000000 mod 60)
            +:+ (if a mod 1000000 =? 0 then EmptyString
                 else "." +:+ zero_padded 6 (a mod 1000000))).

(** [t.isoformat()] *)
Definition isoformat (t : datetime) : string :=
  zero_padded 4 (year t) +:+ "-" +:+ zero_padded 2 (month t) +:+ "-" +:+ zero_padded 2 (day t)
  +:+ "T" +:+ zero_padded 2 (hour t) +:+ ":" +:+ zero_padded 2 (minute t)
  +:+ ":" +:+ zero_padded 2 (second t)
  +:+ (if microsecond t =? 0 then EmptyString else "." +:+ zero_padded 6 (microsecond t))
  +:+ match tzinfo t with
      | None => EmptyString
      | Some off => format_offset off
      end.

(** [s.replace(old, new)] for a one-character [old]. *)
Fixpoint replace (old : ascii) (new : string) (s : string) : string :=
  match s with
  | EmptyString => EmptyString
  | String c rest =>
      if decide (c = old) then new +:+ replace old new rest
      else String c (replace old new rest)
  end.

(** ** The world of a request *)

(** The two collections of [..database], the system clock (its successive
    readings) and the ObjectIds the driver generates (in the order drawn). *)
Record world := mkWorld {
  announcements_collection : collection;
  teachers_collection : collection;
  clock : nat -> datetime;
  clock_reads : nat;
  object_ids : nat -> ObjectId;
  ids_drawn : nat
}.

Definition M (A : Type) : Type := world -> outcome A * world.

Definition ret {A} (a : A) : M A := fun w => (Return a, w).

Definition raise {A} (e : exn) : M A := fun w => (Raise e, w).

Definition bind {A B} (m : M A) (k : A -> M B) : M B :=
  fun w =>
    match m w with
    | (Return a, w') => k a w'
    | (Raise e, w') => (Raise e, w')
    end.

Notation "x <- m ;; k" := (bind m (fun x => k))
  (at level 100, m at next level, right associativity).
Notation "m ;;; k" := (bind m (fun _ => k))
  (at level 100, right associativity).

(** [try: body except <caught>: handler] *)
Definition try_except {A} (body : M A) (caught : exn -> bool) (handler : M A) : M A :=
  fun w =>
    match body w with
    | (Raise e, w') => if caught e then handler w' else (Raise e, w')
    | r => r
    end.

Definition except_ValueError (e : exn) : bool :=
  match e with ValueError => true | _ => false end.

(** Every exception of the model derives from [Exception]. *)
Definition except_Exception (e : exn) : bool := true.

(** A library call that returns or raises [e]. *)
Definition or_raise {A} (e : exn) (r : option A) : M A :=
  match r with
  | Some a => ret a
  | None => raise e
  end.

Definition of_outcome {A} (r : outcome A) : M A := fun w => (r, w).

(** What the clock shows at the next reading, as a naive datetime. *)
Definition reading (w : world) : datetime :=
  let t := clock w (clock_reads w) in
  mkDatetime (year t) (month t) (day t) (hour t) (minute t) (second t)
    (microsecond t) None.

(** The world once the clock was read. *)
Definition ticked (w : world) : world :=
  mkWorld (announcements_collection w) (teachers_collection w)
    (clock w) (S (clock_reads w)) (object_ids w) (ids_drawn w).

(** [datetime.utcnow()] *)
Definition utcnow : M datetime := fun w => (Return (reading w), ticked w).

Definition get_announcements : M collection :=
  fun w => (Return (announcements_collection w), w).

Definition put_announcements (c : collection) : M unit :=
  fun w =>
    (Return tt,
     mkWorld c (teachers_collection w) (clock w) (clock_reads w)
       (object_ids w) (ids_drawn w)).

Definition get_teachers : M collection :=
  fun w => (Return (teachers_collection w), w).

(** [ObjectId()], as [insert_one] draws it for a document without [_id]. *)
Definition new_ObjectId : M ObjectId :=
  fun w =>
    (Return (object_ids w (ids_drawn w)),
     mkWorld (announcements_collection w) (teachers_collection w)
       (clock w) (clock_reads w) (object_ids w) (S (ids_drawn w))).

(** *** Python truth values *)

(** [bool(d)] for the result of [find_one]: [None] and the empty dict are
    false. *)
Definition truthy_dict (d : option dict) : bool :=
  match d with
  | None => false
  | Some m => negb (bool_decide (m = ∅))
  end.

(** [bool(s)] for an [Optional[str]]: [None] and the empty text are false. *)
Definition truthy_str (s : option string) : bool :=
  match s with
  | None => false
  | Some EmptyString => false
  | Some _ => true
  end.

(** The text of a true [Optional[str]]. *)
Definition text_of (s : option string) : string := default EmptyString s.

(** ** The router *)

(** [for announcement in announcements:
       announcement["_id"] = str(announcement["_id"])] *)
Fixpoint stringify_ids (announcements : list dict) : M (list dict) :=
  match announcements with
  | [] => ret []
  | announcement :: rest =>
      id <- or_raise KeyError (announcement !! "_id") ;;
      rest' <- stringify_ids rest ;;
      ret (<["_id" := BStr (str id)]> announcement :: rest')
  end.

(** The filter of [get_active_announcements]. *)
Definition active_query (current_time : string) : query :=
  q_and
    [ q_field "expiration_date" (c_gte (BStr current_time));
      q_or
        [ q_field "start_date" (c_exists false);
          q_field "start_date" (c_lte (BStr current_time)) ] ].

Definition by_id (id : bson) : query := q_field "_id" (c_eq id).

(** Closed equations between results of the model are settled by evaluating
    both sides. *)
Ltac by_evaluation :=
  repeat split;
  lazymatch goal with
  | |- ?a = _ => vm_cast_no_check (@eq_refl _ a)
  end.

Section Library.

(** The [datetime] of the interpreter the service runs on. *)
Context {library : DatetimeModule}.

(** The shared validation of [expiration_date] in create and update. *)
Definition validate_expiration_date (expiration_date : string) : M unit :=
  try_except
    (expiration_dt <- or_raise ValueError
                        (fromisoformat (replace "Z" "+00:00" expiration_date)) ;;
     now <- utcnow ;;
     late <- of_outcome (datetime_le expiration_dt now) ;;
     if late : bool
     then raise (HTTPException 400 "Expiration date must be in the future")
     else ret tt)
    except_ValueError
    (raise (HTTPException 400 "Invalid expiration date format")).

(** The shared validation of [start_date] in create and update. *)
Definition validate_start_date (start_date : option string) : M unit :=
  if truthy_str start_date then
    try_except
      (or_raise ValueError (fromisoformat (replace "Z" "+00:00" (text_of start_date))) ;;;
       ret tt)
      except_ValueError
      (raise (HTTPException 400 "Invalid start date format"))
  else ret tt.

(** The id check of update and delete:
    [try: obj_id = ObjectId(announcement_id)
     except Exception: raise HTTPException(400, ...)] *)
Definition parse_id (announcement_id : string) : M ObjectId :=
  try_except (or_raise InvalidId (ObjectId_of_str announcement_id))
    except_Exception (raise (HTTPException 400 "Invalid announcement ID")).

Section Router.

Variable engine : sorter.

(** [list(collection.find(q).sort(key, direction))] on the announcements. *)
Definition find_sorted (q : query) (key : string) (direction : Z) : M (list dict) :=
  c <- get_announcements ;;
  ret (sort engine key direction (find q c)).

(** GET /announcements/active *)
Definition get_active_announcements : M (list dict) :=
  now <- utcnow ;;
  let current_time := isoformat now +:+ "Z" in
  announcements <- find_sorted (active_query current_time) "created_at" (-1) ;;
  stringify_ids announcements.

(** The identity check that opens the four other handlers. *)
Definition verify_teacher (username : string) : M unit :=
  teachers <- get_teachers ;;
  let teacher := find_one (by_id (BStr username)) teachers in
  if negb (truthy_dict teacher)
  then raise (HTTPException 401 "Unauthorized")
  else ret tt.

(** GET /announcements/all *)
Definition get_all_announcements (username : string) : M (list dict) :=
  verify_teacher username ;;;
  announcements <- find_sorted (q_and []) "created_at" (-1) ;;
  stringify_ids announcements.

End Router.

(** The dict [create_announcement] builds before the insert. *)
Definition new_announcement
    (message expiration_date username : string) (start_date : option string)
    (created_at : string) : dict :=
  let announcement : dict :=
    {[ "message" := BStr message;
       "expiration_date" := BStr expiration_date;
       "created_by" := BStr username;
       "created_at" := BStr created_at ]} in
  if truthy_str start_date
  then <["start_date" := BStr (text_of start_date)]> announcement
  else announcement.

(** [collection.insert_one(doc)] on the announcements: the driver draws an
    ObjectId, stores the document under it and sets it in [doc] as well. *)
Definition insert_announcement (doc : dict) : M (ObjectId * dict) :=
  inserted_id <- new_ObjectId ;;
  c <- get_announcements ;;
  put_announcements (insert_one inserted_id doc c) ;;;
  ret (inserted_id, <["_id" := BOid inserted_id]> doc).

(** POST /announcements/ *)
Definition create_announcement
    (message expiration_date username : string) (start_date : option string) : M dict :=
  verify_teacher username ;;;
  validate_expiration_date expiration_date ;;;
  validate_start_date start_date ;;;
  created <- utcnow ;;
  let announcement :=
    new_announcement message expiration_date username start_date
      (isoformat created +:+ "Z") in
  r <- insert_announcement announcement ;;
  let '(inserted_id, announcement) := r in
  ret (<["_id" := BStr (str (BOid inserted_id))]> announcement).

(** [collection.update_one(q, u)] on the announcements. *)
Definition update_announcements (q : query) (u : update) : M unit :=
  c <- get_announcements ;;
  put_announcements (update_one q u c).

(** PUT /announcements/{announcement_id} *)
Definition update_announcement
    (announcement_id message expiration_date username : string)
    (start_date : option string) : M dict :=
  verify_teacher username ;;;
  obj_id <- parse_id announcement_id ;;
  c <- get_announcements ;;
  let existing := find_one (by_id (BOid obj_id)) c in
  if negb (truthy_dict existing)
  then raise (HTTPException 404 "Announcement not found")
  else
    validate_expiration_date expiration_date ;;;
    validate_start_date start_date ;;;
    let update_data : dict :=
      {[ "message" := BStr message; "expiration_date" := BStr expiration_date ]} in
    update_data <-
      (if truthy_str start_date
       then ret (<["start_date" := BStr (text_of start_date)]> update_data)
       else
         update_announcements (by_id (BOid obj_id))
           (u_unset {[ "start_date" := BStr EmptyString ]}) ;;;
         ret update_data) ;;
    update_announcements (by_id (BOid obj_id)) (u_set update_data) ;;;
    c' <- get_announcements ;;
    match find_one (by_id (BOid obj_id)) c' with
    | None => raise TypeError
    | Some updated =>
        id <- or_raise KeyError (updated !! "_id") ;;
        ret (<["_id" := BStr (str id)]> updated)
    end.

(** DELETE /announcements/{announcement_id} *)
Definition delete_announcement (announcement_id username : string) : M dict :=
  verify_teacher username ;;;
  obj_id <- parse_id announcement_id ;;
  c <- get_announcements ;;
  let '(c', deleted_count) := delete_one (by_id (BOid obj_id)) c in
  put_announcements c' ;;;
  if deleted_count =? 0
  then raise (HTTPException 404 "Announcement not found")
  else ret {[ "message" := BStr "Announcement deleted successfully" ]}.

(** ** Two sorts that keep the store's promise *)

Global Instance ordered_by_dec key direction : RelDecision (ordered_by key direction).
Proof. intros a b. unfold ordered_by. destruct (direction <? 0); apply _. Defined.

Global Instance key_leb_total : Total (fun x y => key_leb x y = true).
Proof.
  intros x y.
  destruct x as [[a|a]|], y as [[b|b]|]; simpl; auto using String.leb_total.
Qed.

Global Instance key_leb_trans : Transitive (fun x y => key_leb x y = true).
Proof.
  assert (Hs : ∀ a b c, String.leb a b = true → String.leb b c = true →
                        String.leb a c = true).
  { intros a b c Hab Hbc. apply Is_true_true. apply Is_true_true in Hab, Hbc.
    change (String.le a c). by trans b. }
  intros x y z.
  destruct x as [[a|a]|], y as [[b|b]|], z as [[c|c]|]; simpl; try done; apply Hs.
Qed.

Global Instance ordered_by_total key direction : Total (ordered_by key direction).
Proof.
  intros a b. unfold ordered_by. destruct (direction <? 0); apply key_leb_total.
Qed.

Global Instance ordered_by_trans key direction : Transitive (ordered_by key direction).
Proof.
  intros a b c. unfold ordered_by.
  destruct (direction <? 0); intros H1 H2; by eapply key_leb_trans.
Qed.

(** A merge sort of the documents in the order found. *)
Definition merge_sorter : sorter :=
  mkSorter (fun key direction => merge_sort (ordered_by key direction))
    (fun key direction => merge_sort_Permutation (ordered_by key direction))
    (fun key direction => Sorted_merge_sort (ordered_by key direction)).

(** The same sort, reading the documents found from the last to the first. *)
Definition reversed_sorter : sorter.
Proof.
  refine (mkSorter
            (fun key direction l => merge_sort (ordered_by key direction) (reverse l))
            _ _).
  - intros key direction l. rewrite merge_sort_Permutation. apply reverse_Permutation.
  - intros key direction l. apply Sorted_merge_sort. apply _.
Defined.

(** ** The vocabulary of the specification *)

(** The username is in the teacher directory. *)
Definition registered (username : string) (w : world) : Prop :=
  ∃ t, t ∈ teachers_collection w ∧ doc_id t = BStr username.

Global Instance registered_dec (username : string) (w : world) :
  Decision (registered username w).
Proof.
  refine (cast_if (decide (Exists (fun t => doc_id t = BStr username)
                             (teachers_collection w))));
    unfold registered; by rewrite <- Exists_exists.
Defined.

(** The parse both validations apply to a timestamp text. *)
Definition parsed (s : string) : option datetime :=
  fromisoformat (replace "Z" "+00:00" s).

(** [a] is later than [b], for two datetimes that compare by their fields. *)
Definition later (a b : datetime) : Prop :=
  tuple_compare (fields_of a) (fields_of b) = Gt.

Global Instance later_dec a b : Decision (later a b).
Proof. unfold later. apply _. Defined.

Definition leap_day (y : Z) : Z := if is_leap y then 1 else 0.

Definition Unauthorized : exn := HTTPException 401 "Unauthorized".
Definition InvalidIdError : exn := HTTPException 400 "Invalid announcement ID".
Definition NotFound : exn := HTTPException 404 "Announcement not found".
Definition InvalidExpirationFormat : exn := HTTPException 400 "Invalid expiration date format".
Definition InvalidStartFormat : exn := HTTPException 400 "Invalid start date format".
Definition ValidationError : exn := HTTPException 400 "Expiration date must be in the future".

(** The errors the specification names. *)
Definition in_taxonomy (e : exn) : Prop :=
  e ∈ [Unauthorized; InvalidIdError; NotFound; InvalidExpirationFormat;
       InvalidStartFormat; ValidationError].

(** A start date the validation lets through: none, the empty text, or a
    text that parses. *)
Definition start_accepted (start_date : option string) : Prop :=
  truthy_str start_date = true → is_Some (parsed (text_of start_date)).

(** What [find_one] answers for a query on [_id]: the first document with
    that id, when there is one. *)
Inductive first_with_id (v : bson) (c : collection) : option document → Prop :=
  | first_found c1 d c2 :
      c = c1 ++ d :: c2 → doc_id d = v → Forall (fun x => doc_id x ≠ v) c1 →
      first_with_id v c (Some d)
  | none_found :
      Forall (fun x => doc_id x ≠ v) c → first_with_id v c None.

(** A document as the listings hand it out: its [_id] as text. *)
Definition rendered (a : dict) : dict :=
  match a !! "_id" with
  | Some id => <["_id" := BStr (str id)]> a
  | None => a
  end.

(** The documents a sorted find hands to the rendering loop. *)
Definition found_sorted (engine : sorter) (q : query) (w : world) : list dict :=
  sort engine "created_at" (-1) (find q (announcements_collection w)).

(** An announcement is active at [now]: it has not expired and, when it has
    a start date, has started. The dates are compared as the store compares
    them, as texts. *)
Definition active_at (now : string) (a : dict) : Prop :=
  (∃ e, a !! "expiration_date" = Some (BStr e) ∧ String.leb now e = true)
  ∧ (a !! "start_date" = None
     ∨ ∃ s, a !! "start_date" = Some (BStr s) ∧ String.leb s now = true).

(** Newest first: the order of [created_at], descending. *)
Definition newest_first (a b : dict) : Prop :=
  key_leb (b !! "created_at") (a !! "created_at") = true.

(** The record a successful create returns. *)
Definition created_record
    (message expiration_date username : string) (start_date : option string)
    (w : world) : dict :=
  <["_id" := BStr (str (BOid (object_ids w (ids_drawn w))))]>
    (new_announcement message expiration_date username start_date
       (isoformat (reading (ticked w)) +:+ "Z")).

(** The world a successful create leaves: the clock was read twice, an
    ObjectId drawn, and the new document stored last. *)
Definition created_world
    (message expiration_date username : string) (start_date : option string)
    (w : world) : world :=
  mkWorld
    (insert_one (object_ids w (ids_drawn w))
       (new_announcement message expiration_date username start_date
          (isoformat (reading (ticked w)) +:+ "Z"))
       (announcements_collection w))
    (teachers_collection w) (clock w) (S (S (clock_reads w)))
    (object_ids w) (S (ids_drawn w)).

(** The fields update writes with [$set]. *)
Definition update_data_of
    (message expiration_date : string) (start_date : option string) : dict :=
  let update_data : dict :=
    {[ "message" := BStr message; "expiration_date" := BStr expiration_date ]} in
  if truthy_str start_date
  then <["start_date" := BStr (text_of start_date)]> update_data
  else update_data.

(** The stored document after the one or two writes of update. *)
Definition updated_document
    (message expiration_date : string) (start_date : option string)
    (d : document) : document :=
  apply_update (u_set (update_data_of message expiration_date start_date))
    (if truthy_str start_date then d
     else apply_update (u_unset {[ "start_date" := BStr EmptyString ]}) d).

Definition with_announcements (c : collection) (w : world) : world :=
  mkWorld c (teachers_collection w) (clock w) (clock_reads w)
    (object_ids w) (ids_drawn w).

(** The world with another teacher directory. *)
Definition with_teachers (teachers : collection) (w : world) : world :=
  mkWorld (announcements_collection w) teachers (clock w) (clock_reads w)
    (object_ids w) (ids_drawn w).

Definition deleted_message : dict :=
  {[ "message" := BStr "Announcement deleted successfully" ]}.

(** *** Further vocabulary *)

(** What no step of a request touches: the teacher directory, the clock and
    the id supply themselves; the two counters only advance. *)
Definition frame (w w' : world) : Prop :=
  teachers_collection w' = teachers_collection w
  ∧ clock w' = clock w
  ∧ object_ids w' = object_ids w
  ∧ (clock_reads w ≤ clock_reads w')%nat
  ∧ (ids_drawn w ≤ ids_drawn w')%nat.

Definition framed {A} (m : M A) : Prop := ∀ w, frame w (m w).2.

(** The interpreter reads the texts of the documented format as
    documented. *)
Definition reads_documented_format : Prop :=
  ∀ s t, fromisoformat_documented s = Some t → fromisoformat s = Some t.

(** No two stored announcements have the same id. *)
Definition unique_ids (c : collection) : Prop := NoDup (doc_id <$> c).

(** The character of a decimal digit. *)
Definition digit_char (d : Z) : ascii := ascii_of_N (48 + Z.to_N d).

(** A text without the characters [bad]. *)
Fixpoint avoids (bad : ascii → bool) (s : string) : bool :=
  match s with
  | EmptyString => true
  | String c rest => negb (bad c) && avoids bad rest
  end.

Definition is_Z (c : ascii) : bool := bool_decide (c = "Z"%char).

Definition is_sign (c : ascii) : bool :=
  bool_decide (c = "+"%char) || bool_decide (c = "-"%char).

(** The fraction [isoformat] writes. *)
Definition fraction_text (us : Z) : string :=
  if us =? 0 then EmptyString else "." +:+ zero_padded 6 us.

Definition date_text (y m d : Z) : string :=
  zero_padded 4 y +:+ "-" +:+ zero_padded 2 m +:+ "-" +:+ zero_padded 2 d.

Definition clock_text (h mi s us : Z) : string :=
  zero_padded 2 h +:+ ":" +:+ zero_padded 2 mi +:+ ":" +:+ zero_padded 2 s
  +:+ fraction_text us.

(** ** A small school, for the examples *)

(** The clock shows 2026-11-03 22:47:00 at the first reading and one
    microsecond more at each later one. *)
Definition example_clock (n : nat) : datetime :=
  mkDatetime 2026 11 3 22 47 0 (Z.of_nat n) None.

Definition example_ids (n : nat) : ObjectId :=
  mkObjectId ("announce-00" +:+ String (ascii_of_nat (48 + n)) EmptyString).

Definition example_teachers : collection :=
  [ mkDocument (BStr "mrodriguez") {[ "display_name" := BStr "Ms. Rodriguez" ]} ].

(** An announcement as a create at [created_at] stored it. *)
Definition example_document
    (id : string) (message expiration_date created_at : string)
    (start_date : option string) : document :=
  mkDocument (BOid (mkObjectId id))
    (new_announcement message expiration_date "mrodriguez" start_date created_at).

Definition empty_school : world :=
  mkWorld [] example_teachers example_clock 0 example_ids 0.

Definition science_fair : document :=
  example_document "announce-old" "Science fair" "2026-12-01T00:00:00Z"
    "2026-10-01T08:00:00Z" None.

Definition winter_concert : document :=
  example_document "announce-new" "Winter concert" "2026-12-20T00:00:00Z"
    "2026-10-15T08:00:00Z" (Some "2026-11-01T00:00:00Z").

Definition example_school : world :=
  mkWorld [science_fair; winter_concert] example_teachers example_clock 0 example_ids 0.

(** Two announcements created at the same instant. *)
Definition bake_sale : document :=
  example_document "announce-one" "Bake sale" "2026-12-01T00:00:00Z"
    "2026-10-01T08:00:00Z" None.

Definition book_fair : document :=
  example_document "announce-two" "Book fair" "2026-12-01T00:00:00Z"
    "2026-10-01T08:00:00Z" None.

Definition tied_school : world :=
  mkWorld [bake_sale; book_fair] example_teachers example_clock 0 example_ids 0.

(** The winter concert after its move to the 22nd. *)
Definition moved_concert : document :=
  updated_document "Winter concert (moved)" "2026-12-22T00:00:00" None winter_concert.

Definition moved_record : dict :=
  <["_id" := BStr "616e6e6f756e63652d6e6577"]> (as_dict moved_concert).

Definition school_after_move : world :=
  with_announcements [science_fair; moved_concert] (ticked example_school).

(** ** Properties of the store *)

Lemma as_dict_id (d : document) : as_dict d !! "_id" = Some (doc_id d).
Proof. apply lookup_insert_eq. Qed.

Lemma as_dict_lookup_ne (d : document) (k : string) :
  k ≠ "_id" → as_dict d !! k = doc_fields d !! k.
Proof. intros Hk. unfold as_dict. by rewrite lookup_insert_ne. Qed.

Lemma as_dict_nonempty (d : document) : as_dict d ≠ ∅.
Proof. apply insert_non_empty. Qed.

Lemma doc_matches_by_id (v : bson) (d : document) :
  doc_matches (by_id v) d = bool_decide (doc_id d = v).
Proof. unfold doc_matches, by_id. simpl. by rewrite as_dict_id. Qed.

Lemma first_with_id_total (v : bson) (c : collection) :
  ∃ r, first_with_id v c r.
Proof.
  induction c as [|d c [r IH]].
  - exists None. by constructor.
  - destruct (decide (doc_id d = v)) as [Heq|Hne].
    + exists (Some d). by apply (first_found v _ [] d c).
    + destruct IH as [c1 x c2 -> Hx Hc1|Hall].
      * exists (Some x). apply (first_found v _ (d :: c1) x c2); auto.
      * exists None. constructor. auto.
Qed.

Lemma first_with_id_elem (v : bson) (c : collection) (d : document) :
  d ∈ c → doc_id d = v → ∃ x, first_with_id v c (Some x).
Proof.
  intros Hin Hd. destruct (first_with_id_total v c) as [[x|] Hr]; [eauto|].
  inversion Hr as [|Hall]. rewrite Forall_forall in Hall. by destruct (Hall d Hin).
Qed.

Lemma find_by_id_skip (v : bson) (c1 c2 : collection) :
  Forall (fun x => doc_id x ≠ v) c1 →
  find (by_id v) (c1 ++ c2) = find (by_id v) c2.
Proof.
  intros Hall. unfold find. induction Hall as [|x c1 Hx _ IH]; [done|].
  rewrite <- app_comm_cons, filter_cons, doc_matches_by_id.
  rewrite decide_False; [exact IH|]. by rewrite bool_decide_eq_true.
Qed.

Lemma find_one_by_id (v : bson) (c : collection) (r : option document) :
  first_with_id v c r → find_one (by_id v) c = as_dict <$> r.
Proof.
  unfold find_one. intros [c1 d c2 -> Hd Hc1|Hall].
  - rewrite find_by_id_skip by done. unfold find.
    rewrite filter_cons, doc_matches_by_id, decide_True; [done|].
    by rewrite bool_decide_eq_true.
  - rewrite <- (app_nil_r c), find_by_id_skip by done. done.
Qed.

Lemma update_one_by_id (v : bson) (u : update) (c : collection) (r : option document) :
  first_with_id v c r →
  match r with
  | Some d => ∃ c1 c2, c = c1 ++ d :: c2 ∧ Forall (fun x => doc_id x ≠ v) c1
               ∧ update_one (by_id v) u c = c1 ++ apply_update u d :: c2
  | None => update_one (by_id v) u c = c
  end.
Proof.
  intros [c1 d c2 -> Hd Hc1|Hall].
  - exists c1, c2. split; [done|]. split; [done|].
    induction Hc1 as [|x c1 Hx _ IH]; simpl.
    + rewrite doc_matches_by_id. by rewrite bool_decide_eq_true_2.
    + rewrite doc_matches_by_id, bool_decide_eq_false_2 by done. by rewrite IH.
  - induction Hall as [|x c Hx _ IH]; simpl; [done|].
    rewrite doc_matches_by_id, bool_decide_eq_false_2 by done. by rewrite IH.
Qed.

Lemma delete_one_by_id (v : bson) (c : collection) (r : option document) :
  first_with_id v c r →
  match r with
  | Some d => ∃ c1 c2, c = c1 ++ d :: c2 ∧ Forall (fun x => doc_id x ≠ v) c1
               ∧ delete_one (by_id v) c = (c1 ++ c2, 1)
  | None => delete_one (by_id v) c = (c, 0)
  end.
Proof.
  intros [c1 d c2 -> Hd Hc1|Hall].
  - exists c1, c2. split; [done|]. split; [done|].
    induction Hc1 as [|x c1 Hx _ IH]; simpl.
    + rewrite doc_matches_by_id. by rewrite bool_decide_eq_true_2.
    + rewrite doc_matches_by_id, bool_decide_eq_false_2 by done. by rewrite IH.
  - induction Hall as [|x c Hx _ IH]; simpl; [done|].
    rewrite doc_matches_by_id, bool_decide_eq_false_2 by done. by rewrite IH.
Qed.

Lemma apply_update_id (u : update) (d : document) : doc_id (apply_update u d) = doc_id d.
Proof. by destruct u. Qed.

Lemma first_with_id_updated (v : bson) (u : update) (c1 c2 : collection) (d : document) :
  doc_id d = v → Forall (fun x => doc_id x ≠ v) c1 →
  first_with_id v (c1 ++ apply_update u d :: c2) (Some (apply_update u d)).
Proof. intros Hd Hc1. eapply first_found; [done| |done]. by rewrite apply_update_id. Qed.

(** ** Properties of the steps the handlers share *)

Lemma bind_Return {A B} (m : M A) (k : A → M B) (w w' : world) (a : A) :
  m w = (Return a, w') → bind m k w = k a w'.
Proof. unfold bind. by intros ->. Qed.

Lemma bind_Raise {A B} (m : M A) (k : A → M B) (w w' : world) (e : exn) :
  m w = (Raise e, w') → bind m k w = (Raise e, w').
Proof. unfold bind. by intros ->. Qed.

Lemma verify_teacher_registered (username : string) (w : world) :
  registered username w → verify_teacher username w = (Return tt, w).
Proof.
  intros (t & Hin & Hid). unfold verify_teacher, get_teachers, bind.
  destruct (first_with_id_elem _ _ _ Hin Hid) as [x Hx].
  rewrite (find_one_by_id _ _ _ Hx). simpl.
  by rewrite bool_decide_eq_false_2 by apply as_dict_nonempty.
Qed.

Lemma verify_teacher_unregistered (username : string) (w : world) :
  ¬ registered username w → verify_teacher username w = (Raise Unauthorized, w).
Proof.
  intros Hno. unfold verify_teacher, get_teachers, bind.
  destruct (first_with_id_total (BStr username) (teachers_collection w)) as [[x|] Hx].
  - destruct Hno. inversion Hx as [c1 d c2 Hc Hd _|]; subst.
    exists x. split; [|done]. rewrite Hc, elem_of_app, elem_of_cons. auto.
  - by rewrite (find_one_by_id _ _ _ Hx).
Qed.

Lemma validate_expiration_unparsable (expiration_date : string) (w : world) :
  parsed expiration_date = None →
  validate_expiration_date expiration_date w = (Raise InvalidExpirationFormat, w).
Proof.
  unfold parsed, validate_expiration_date, try_except, bind. by intros ->.
Qed.

Lemma validate_expiration_aware (expiration_date : string) (t : datetime) (off : Z) (w : world) :
  parsed expiration_date = Some t → tzinfo t = Some off →
  validate_expiration_date expiration_date w = (Raise TypeError, ticked w).
Proof.
  unfold parsed, validate_expiration_date, try_except, bind. intros -> Htz. simpl.
  unfold of_outcome, datetime_le, datetime_cmp. rewrite Htz.
  change (tzinfo (reading w)) with (@None Z). by rewrite decide_False.
Qed.

Lemma validate_expiration_naive (expiration_date : string) (t : datetime) (w : world) :
  parsed expiration_date = Some t → tzinfo t = None →
  validate_expiration_date expiration_date w =
    (if decide (later t (reading w)) then Return tt else Raise ValidationError, ticked w).
Proof.
  unfold parsed, validate_expiration_date, try_except, bind. intros -> Htz. simpl.
  unfold of_outcome, datetime_le, datetime_cmp. rewrite Htz.
  change (tzinfo (reading w)) with (@None Z). rewrite decide_True by done.
  destruct (decide (later t (reading w))) as [Hl|Hl]; unfold later in Hl.
  - by rewrite Hl.
  - by destruct (tuple_compare (fields_of t) (fields_of (reading w))).
Qed.

Lemma validate_start_absent (start_date : option string) (w : world) :
  truthy_str start_date = false → validate_start_date start_date w = (Return tt, w).
Proof. unfold validate_start_date. by intros ->. Qed.

Lemma validate_start_given (start_date : option string) (w : world) :
  truthy_str start_date = true →
  validate_start_date start_date w =
    (match parsed (text_of start_date) with
     | Some _ => Return tt
     | None => Raise InvalidStartFormat
     end, w).
Proof.
  unfold validate_start_date, parsed, try_except, bind. intros ->.
  by destruct (fromisoformat _).
Qed.

Lemma truthy_str_text (start_date : option string) :
  truthy_str start_date = true → start_date = Some (text_of start_date).
Proof. by destruct start_date as [[|]|]. Qed.

(** ** Chronology

    Python compares two naive datetimes by their fields; on datetimes that
    the constructor accepts this is the order of the instants. *)

Lemma days_before_year_succ (y : Z) :
  days_before_year (y + 1) = days_before_year y + 365 + leap_day y.
Proof.
  unfold days_before_year, leap_day, is_leap.
  replace (y + 1 - 1) with y by lia.
  destruct (y mod 4 =? 0) eqn:H4; destruct (y mod 100 =? 0) eqn:H100;
    destruct (y mod 400 =? 0) eqn:H400; simpl;
    rewrite ?Z.eqb_eq, ?Z.eqb_neq in *; Z.div_mod_to_equations; lia.
Qed.

Lemma days_before_year_mono (y1 y2 : Z) :
  y1 < y2 → days_before_year y1 + 365 + leap_day y1 ≤ days_before_year y2.
Proof.
  intros H. rewrite <- days_before_year_succ.
  assert (Hle : y1 + 1 ≤ y2) by lia. revert Hle. generalize (y1 + 1). clear.
  intros a Ha. unfold days_before_year. Z.div_mod_to_equations. lia.
Qed.

Ltac month_cases m :=
  let H := fresh in
  assert (H : m = 1 ∨ m = 2 ∨ m = 3 ∨ m = 4 ∨ m = 5 ∨ m = 6 ∨ m = 7 ∨ m = 8
              ∨ m = 9 ∨ m = 10 ∨ m = 11 ∨ m = 12) by lia;
  destruct H as [->|[->|[->|[->|[->|[->|[->|[->|[->|[->|[->| ->]]]]]]]]]]].

Lemma day_of_year_range (y m d : Z) :
  1 ≤ m ≤ 12 → 1 ≤ d ≤ days_in_month y m →
  1 ≤ days_before_month y m + d ≤ 365 + leap_day y.
Proof.
  intros Hm. unfold days_before_month, days_in_month, leap_day.
  month_cases m; simpl; destruct (is_leap y); simpl; lia.
Qed.

Lemma day_of_year_mono (y m1 d1 m2 d2 : Z) :
  1 ≤ m1 → m1 < m2 → m2 ≤ 12 → d1 ≤ days_in_month y m1 → 1 ≤ d2 →
  days_before_month y m1 + d1 < days_before_month y m2 + d2.
Proof.
  intros H1 H12 H2. unfold days_before_month, days_in_month.
  month_cases m1; month_cases m2; try lia; simpl; destruct (is_leap y); simpl; lia.
Qed.

Lemma tuple_compare_chronological (a b : datetime) :
  in_range a → in_range b →
  tuple_compare (fields_of a) (fields_of b) = (wall_microseconds a ?= wall_microseconds b).
Proof.
  destruct a as [y1 m1 d1 h1 i1 s1 u1 z1], b as [y2 m2 d2 h2 i2 s2 u2 z2].
  unfold in_range, wall_microseconds, fields_of, ymd2ord. simpl.
  intros (Hm1 & Hd1 & Hh1 & Hi1 & Hs1 & Hu1) (Hm2 & Hd2 & Hh2 & Hi2 & Hs2 & Hu2).
  pose proof (day_of_year_range y1 m1 d1 Hm1 Hd1) as R1.
  pose proof (day_of_year_range y2 m2 d2 Hm2 Hd2) as R2.
  symmetry.
  destruct (Z.compare_spec y1 y2) as [->|Hy|Hy].
  2:{ pose proof (days_before_year_mono y1 y2 Hy). apply Z.compare_lt_iff. lia. }
  2:{ pose proof (days_before_year_mono y2 y1 Hy). apply Z.compare_gt_iff. lia. }
  destruct (Z.compare_spec m1 m2) as [->|Hm|Hm].
  2:{ pose proof (day_of_year_mono y2 m1 d1 m2 d2). apply Z.compare_lt_iff. lia. }
  2:{ pose proof (day_of_year_mono y2 m2 d2 m1 d1). apply Z.compare_gt_iff. lia. }
  destruct (Z.compare_spec d1 d2) as [->|Hd|Hd];
    [|apply Z.compare_lt_iff; lia|apply Z.compare_gt_iff; lia].
  destruct (Z.compare_spec h1 h2) as [->|Hh|Hh];
    [|apply Z.compare_lt_iff; lia|apply Z.compare_gt_iff; lia].
  destruct (Z.compare_spec i1 i2) as [->|Hi|Hi];
    [|apply Z.compare_lt_iff; lia|apply Z.compare_gt_iff; lia].
  destruct (Z.compare_spec s1 s2) as [->|Hs|Hs];
    [|apply Z.compare_lt_iff; lia|apply Z.compare_gt_iff; lia].
  destruct (Z.compare_spec u1 u2) as [->|Hu|Hu];
    [|apply Z.compare_lt_iff; lia|apply Z.compare_gt_iff; lia].
  apply Z.compare_refl.
Qed.

Lemma later_chronological (a b : datetime) :
  in_range a → in_range b →
  later a b ↔ wall_microseconds b < wall_microseconds a.
Proof.
  intros Ha Hb. unfold later. rewrite tuple_compare_chronological by done.
  rewrite Z.compare_gt_iff. done.
Qed.

(** ** The paths of [create_announcement] *)

Section CreatePaths.

Variables (message expiration_date username : string) (start_date : option string).
Variable w : world.

Local Abbreviation create :=
  (create_announcement message expiration_date username start_date).

Lemma create_unauthorized :
  ¬ registered username w → create w = (Raise Unauthorized, w).
Proof.
  intros Hno. unfold create_announcement.
  by rewrite (bind_Raise _ _ _ _ _ (verify_teacher_unregistered _ _ Hno)).
Qed.

Hypothesis Hreg : registered username w.

Lemma create_invalid_expiration :
  parsed expiration_date = None → create w = (Raise InvalidExpirationFormat, w).
Proof.
  intros Hp. unfold create_announcement.
  rewrite (bind_Return _ _ _ _ _ (verify_teacher_registered _ _ Hreg)).
  by rewrite (bind_Raise _ _ _ _ _ (validate_expiration_unparsable _ _ Hp)).
Qed.

Lemma create_aware_expiration (t : datetime) (off : Z) :
  parsed expiration_date = Some t → tzinfo t = Some off →
  create w = (Raise TypeError, ticked w).
Proof.
  intros Hp Htz. unfold create_announcement.
  rewrite (bind_Return _ _ _ _ _ (verify_teacher_registered _ _ Hreg)).
  by rewrite (bind_Raise _ _ _ _ _ (validate_expiration_aware _ _ _ _ Hp Htz)).
Qed.

Variable t : datetime.
Hypothesis Hparsed : parsed expiration_date = Some t.
Hypothesis Hnaive : tzinfo t = None.

Lemma create_not_in_future :
  ¬ later t (reading w) → create w = (Raise ValidationError, ticked w).
Proof.
  intros Hl. unfold create_announcement.
  rewrite (bind_Return _ _ _ _ _ (verify_teacher_registered _ _ Hreg)).
  erewrite bind_Raise; [done|].
  rewrite (validate_expiration_naive _ _ _ Hparsed Hnaive). by rewrite decide_False.
Qed.

Hypothesis Hlater : later t (reading w).

Lemma create_invalid_start :
  truthy_str start_date = true → parsed (text_of start_date) = None →
  create w = (Raise InvalidStartFormat, ticked w).
Proof.
  intros Ht Hs. unfold create_announcement.
  rewrite (bind_Return _ _ _ _ _ (verify_teacher_registered _ _ Hreg)).
  erewrite bind_Return;
    [|rewrite (validate_expiration_naive _ _ _ Hparsed Hnaive); by rewrite decide_True].
  erewrite bind_Raise; [done|]. rewrite validate_start_given by done. by rewrite Hs.
Qed.

Lemma create_success :
  start_accepted start_date →
  create w =
    (Return (created_record message expiration_date username start_date w),
     created_world message expiration_date username start_date w).
Proof.
  intros Hs. unfold create_announcement.
  rewrite (bind_Return _ _ _ _ _ (verify_teacher_registered _ _ Hreg)).
  erewrite bind_Return;
    [|rewrite (validate_expiration_naive _ _ _ Hparsed Hnaive); by rewrite decide_True].
  erewrite (bind_Return (validate_start_date start_date)); cycle 1.
  { destruct (truthy_str start_date) eqn:Ht.
    - rewrite validate_start_given by done. by destruct (Hs Ht) as [? ->].
    - by apply validate_start_absent. }
  unfold created_record, created_world. cbn.
  by rewrite insert_insert_eq.
Qed.

End CreatePaths.

(** ** The paths of [update_announcement] *)

Lemma parse_id_cases (announcement_id : string) (w : world) :
  parse_id announcement_id w =
    (match ObjectId_of_str announcement_id with
     | Some obj_id => Return obj_id
     | None => Raise InvalidIdError
     end, w).
Proof. unfold parse_id, try_except. by destruct (ObjectId_of_str _). Qed.

Section UpdatePaths.

Variables (announcement_id message expiration_date username : string).
Variable start_date : option string.
Variable w : world.

Local Abbreviation update :=
  (update_announcement announcement_id message expiration_date username start_date).

Lemma update_unauthorized :
  ¬ registered username w → update w = (Raise Unauthorized, w).
Proof.
  intros Hno. unfold update_announcement.
  by rewrite (bind_Raise _ _ _ _ _ (verify_teacher_unregistered _ _ Hno)).
Qed.

Hypothesis Hreg : registered username w.

Lemma update_invalid_id :
  ObjectId_of_str announcement_id = None → update w = (Raise InvalidIdError, w).
Proof.
  intros Hid. unfold update_announcement.
  rewrite (bind_Return _ _ _ _ _ (verify_teacher_registered _ _ Hreg)).
  erewrite bind_Raise; [done|]. by rewrite parse_id_cases, Hid.
Qed.

Variable obj_id : ObjectId.
Hypothesis Hid : ObjectId_of_str announcement_id = Some obj_id.

Lemma update_not_found :
  first_with_id (BOid obj_id) (announcements_collection w) None →
  update w = (Raise NotFound, w).
Proof.
  intros Hnone. unfold update_announcement.
  rewrite (bind_Return _ _ _ _ _ (verify_teacher_registered _ _ Hreg)).
  erewrite bind_Return; [|by rewrite parse_id_cases, Hid].
  unfold bind at 1, get_announcements at 1.
  by rewrite (find_one_by_id _ _ _ Hnone).
Qed.

Variable d : document.
Hypothesis Hfound : first_with_id (BOid obj_id) (announcements_collection w) (Some d).

(** Once the identity, the id and the record are checked, update goes on
    with the validations and the writes. *)
Lemma update_found :
  update w =
    (validate_expiration_date expiration_date ;;;
     validate_start_date start_date ;;;
     update_data <-
       (if truthy_str start_date
        then ret (update_data_of message expiration_date start_date)
        else
          update_announcements (by_id (BOid obj_id))
            (u_unset {[ "start_date" := BStr EmptyString ]}) ;;;
          ret (update_data_of message expiration_date start_date)) ;;
     update_announcements (by_id (BOid obj_id)) (u_set update_data) ;;;
     c' <- get_announcements ;;
     match find_one (by_id (BOid obj_id)) c' with
     | None => raise TypeError
     | Some updated =>
         id <- or_raise KeyError (updated !! "_id") ;;
         ret (<["_id" := BStr (str id)]> updated)
     end) w.
Proof.
  unfold update_announcement.
  rewrite (bind_Return _ _ _ _ _ (verify_teacher_registered _ _ Hreg)).
  erewrite bind_Return; [|by rewrite parse_id_cases, Hid].
  unfold bind at 1, get_announcements at 1.
  rewrite (find_one_by_id _ _ _ Hfound). simpl.
  rewrite bool_decide_eq_false_2 by apply as_dict_nonempty. simpl.
  unfold update_data_of. by destruct (truthy_str start_date).
Qed.

Lemma update_invalid_expiration :
  parsed expiration_date = None → update w = (Raise InvalidExpirationFormat, w).
Proof.
  intros Hp. rewrite update_found.
  by rewrite (bind_Raise _ _ _ _ _ (validate_expiration_unparsable _ _ Hp)).
Qed.

Lemma update_aware_expiration (t : datetime) (off : Z) :
  parsed expiration_date = Some t → tzinfo t = Some off →
  update w = (Raise TypeError, ticked w).
Proof.
  intros Hp Htz. rewrite update_found.
  by rewrite (bind_Raise _ _ _ _ _ (validate_expiration_aware _ _ _ _ Hp Htz)).
Qed.

Variable t : datetime.
Hypothesis Hparsed : parsed expiration_date = Some t.
Hypothesis Hnaive : tzinfo t = None.

Lemma update_not_in_future :
  ¬ later t (reading w) → update w = (Raise ValidationError, ticked w).
Proof.
  intros Hl. rewrite update_found.
  erewrite bind_Raise; [done|].
  rewrite (validate_expiration_naive _ _ _ Hparsed Hnaive). by rewrite decide_False.
Qed.

Hypothesis Hlater : later t (reading w).

Lemma update_invalid_start :
  truthy_str start_date = true → parsed (text_of start_date) = None →
  update w = (Raise InvalidStartFormat, ticked w).
Proof.
  intros Ht Hs. rewrite update_found.
  erewrite bind_Return;
    [|rewrite (validate_expiration_naive _ _ _ Hparsed Hnaive); by rewrite decide_True].
  erewrite bind_Raise; [done|]. rewrite validate_start_given by done. by rewrite Hs.
Qed.

Lemma update_success :
  start_accepted start_date →
  ∃ c1 c2,
    announcements_collection w = c1 ++ d :: c2
    ∧ Forall (fun x => doc_id x ≠ BOid obj_id) c1
    ∧ update w =
        (Return (<["_id" := BStr (str (BOid obj_id))]>
                   (as_dict (updated_document message expiration_date start_date d))),
         with_announcements
           (c1 ++ updated_document message expiration_date start_date d :: c2)
           (ticked w)).
Proof.
  intros Hs.
  inversion Hfound as [c1 d' c2 Hc Hd Hc1|]; subst d'.
  exists c1, c2. split; [done|]. split; [done|].
  rewrite update_found.
  erewrite bind_Return;
    [|rewrite (validate_expiration_naive _ _ _ Hparsed Hnaive); by rewrite decide_True].
  erewrite (bind_Return (validate_start_date start_date)); cycle 1.
  { destruct (truthy_str start_date) eqn:Ht.
    - rewrite validate_start_given by done. by destruct (Hs Ht) as [? ->].
    - by apply validate_start_absent. }
  assert (Hupd : ∀ u x, doc_id x = BOid obj_id →
            update_one (by_id (BOid obj_id)) u (c1 ++ x :: c2) = c1 ++ apply_update u x :: c2).
  { intros u x Hx.
    destruct (update_one_by_id (BOid obj_id) u (c1 ++ x :: c2) (Some x))
      as (l1 & l2 & Heq & Hl1 & ->); [by eapply first_found|].
    clear -Heq Hl1 Hc1 Hx. revert l1 Heq Hl1.
    induction Hc1 as [|y c1 Hy _ IH]; intros [|z l1] Heq Hl1; simplify_eq/=; try done.
    - by inversion Hl1.
    - inversion Hl1; subst. f_equal. by apply IH. }
  unfold updated_document.
  destruct (truthy_str start_date) eqn:Ht.
  - unfold bind, ret, update_announcements, get_announcements, put_announcements, bind.
    simpl. rewrite Hc, Hupd by done.
    rewrite (find_one_by_id _ _ (Some _) (first_with_id_updated _ _ _ _ _ Hd Hc1)).
    simpl. rewrite as_dict_id. simpl. by rewrite Hd.
  - unfold bind, ret, update_announcements, get_announcements, put_announcements, bind.
    simpl. rewrite Hc, !Hupd by (by rewrite ?apply_update_id).
    erewrite (find_one_by_id _ _ (Some _)); cycle 1.
    { eapply first_found; [done| |done]. by rewrite !apply_update_id. }
    simpl. rewrite as_dict_id. simpl. by rewrite Hd.
Qed.

End UpdatePaths.

(** ** The paths of [delete_announcement] *)

Lemma with_announcements_same (w : world) :
  with_announcements (announcements_collection w) w = w.
Proof. by destruct w. Qed.

Section DeletePaths.

Variables (announcement_id username : string) (w : world).

Local Abbreviation delete := (delete_announcement announcement_id username).

Lemma delete_unauthorized :
  ¬ registered username w → delete w = (Raise Unauthorized, w).
Proof.
  intros Hno. unfold delete_announcement.
  by rewrite (bind_Raise _ _ _ _ _ (verify_teacher_unregistered _ _ Hno)).
Qed.

Hypothesis Hreg : registered username w.

Lemma delete_invalid_id :
  ObjectId_of_str announcement_id = None → delete w = (Raise InvalidIdError, w).
Proof.
  intros Hid. unfold delete_announcement.
  rewrite (bind_Return _ _ _ _ _ (verify_teacher_registered _ _ Hreg)).
  erewrite bind_Raise; [done|]. by rewrite parse_id_cases, Hid.
Qed.

(** With a well-formed id the outcome is read off [delete_one]. *)
Lemma delete_well_formed (obj_id : ObjectId) :
  ObjectId_of_str announcement_id = Some obj_id →
  delete w =
    let '(c', deleted_count) :=
      delete_one (by_id (BOid obj_id)) (announcements_collection w) in
    (if deleted_count =? 0 then Raise NotFound else Return deleted_message,
     with_announcements c' w).
Proof.
  intros Hid. unfold delete_announcement.
  rewrite (bind_Return _ _ _ _ _ (verify_teacher_registered _ _ Hreg)).
  erewrite bind_Return; [|by rewrite parse_id_cases, Hid].
  unfold bind at 1, get_announcements at 1.
  destruct (delete_one _ _) as [c' n]. unfold bind, put_announcements.
  by destruct (n =? 0).
Qed.

End DeletePaths.

(** ** What the two listings return *)

Lemma rendered_lookup_ne (a : dict) (k : string) :
  k ≠ "_id" → rendered a !! k = a !! k.
Proof.
  intros Hk. unfold rendered. destruct (a !! "_id"); [|done].
  by rewrite lookup_insert_ne.
Qed.

Lemma stringify_ids_rendered (l : list dict) (w : world) :
  Forall (fun a => is_Some (a !! "_id")) l →
  stringify_ids l w = (Return (rendered <$> l), w).
Proof.
  induction 1 as [|a l [id Hid] _ IH]; [done|].
  simpl. unfold bind, or_raise. rewrite Hid. simpl. rewrite IH. simpl.
  unfold ret, rendered. by rewrite Hid.
Qed.

Lemma find_has_id (q : query) (c : collection) :
  Forall (fun a => is_Some (a !! "_id")) (find q c).
Proof.
  unfold find. rewrite Forall_fmap. apply Forall_forall. intros d _. simpl.
  rewrite as_dict_id. by eexists.
Qed.

Lemma find_everything (c : collection) : find (q_and []) c = as_dict <$> c.
Proof.
  unfold find. f_equal. induction c as [|d c IH]; [done|].
  rewrite filter_cons, decide_True by done. by rewrite IH.
Qed.

Lemma elem_of_find (q : query) (c : collection) (a : dict) :
  a ∈ find q c ↔ ∃ d, d ∈ c ∧ a = as_dict d ∧ doc_matches q d = true.
Proof.
  unfold find. rewrite list_elem_of_fmap. split.
  - intros (d & -> & Hd). apply list_elem_of_filter in Hd as [Hm Hd]. eauto.
  - intros (d & Hd & -> & Hm). exists d. split; [done|].
    apply list_elem_of_filter. done.
Qed.

Section Listings.

Variable engine : sorter.

Lemma found_sorted_has_id (q : query) (w : world) :
  Forall (fun a => is_Some (a !! "_id")) (found_sorted engine q w).
Proof.
  unfold found_sorted. rewrite (sort_Permutation engine). apply find_has_id.
Qed.

Lemma elem_of_found_sorted (q : query) (w : world) (a : dict) :
  a ∈ found_sorted engine q w ↔ a ∈ find q (announcements_collection w).
Proof. unfold found_sorted. by rewrite (sort_Permutation engine). Qed.

Lemma get_active_announcements_result (w : world) :
  get_active_announcements engine w =
    (Return (rendered <$>
               found_sorted engine (active_query (isoformat (reading w) +:+ "Z")) w),
     ticked w).
Proof.
  unfold get_active_announcements, find_sorted, bind, utcnow, get_announcements, ret.
  change (sort engine "created_at" (-1) (find ?q (announcements_collection (ticked w))))
    with (found_sorted engine q w).
  apply stringify_ids_rendered, found_sorted_has_id.
Qed.

Lemma get_all_announcements_result (username : string) (w : world) :
  registered username w →
  get_all_announcements engine username w =
    (Return (rendered <$> found_sorted engine (q_and []) w), w).
Proof.
  intros Hreg. unfold get_all_announcements.
  rewrite (bind_Return _ _ _ _ _ (verify_teacher_registered _ _ Hreg)).
  unfold find_sorted, bind, get_announcements, ret.
  change (sort engine "created_at" (-1) (find ?q (announcements_collection w)))
    with (found_sorted engine q w).
  apply stringify_ids_rendered, found_sorted_has_id.
Qed.

End Listings.

Lemma rendered_as_dict (d : document) :
  rendered (as_dict d) = <["_id" := BStr (str (doc_id d))]> (doc_fields d).
Proof. unfold rendered. rewrite as_dict_id. unfold as_dict. apply insert_insert_eq. Qed.

Lemma not_expired_iff (now : string) (x : option bson) :
  cond_holds (c_gte (BStr now)) x = true
  ↔ ∃ e, x = Some (BStr e) ∧ String.leb now e = true.
Proof.
  destruct x as [[e|o]|]; simpl.
  - split; [eauto|]. by intros (? & [= <-] & ?).
  - split; [done|]. by intros (? & ? & ?).
  - split; [done|]. by intros (? & ? & ?).
Qed.

Lemma started_iff (now : string) (x : option bson) :
  cond_holds (c_exists false) x || cond_holds (c_lte (BStr now)) x = true
  ↔ x = None ∨ ∃ s, x = Some (BStr s) ∧ String.leb s now = true.
Proof.
  destruct x as [[s|o]|]; simpl.
  - split; [eauto|]. by intros [|(? & [= <-] & ?)].
  - split; [done|]. by intros [|(? & ? & ?)].
  - split; auto.
Qed.

Lemma matches_active_query (now : string) (a : dict) :
  matches (active_query now) a = true ↔ active_at now a.
Proof.
  unfold active_query, active_at. cbn [matches forallb existsb].
  rewrite !andb_true_r, orb_false_r, andb_true_iff.
  by rewrite not_expired_iff, started_iff.
Qed.

Lemma active_at_same_dates (now : string) (a b : dict) :
  a !! "expiration_date" = b !! "expiration_date" →
  a !! "start_date" = b !! "start_date" →
  active_at now a → active_at now b.
Proof. unfold active_at. by intros -> ->. Qed.

Lemma ordered_rendered (a b : dict) :
  ordered_by "created_at" (-1) a b → newest_first (rendered a) (rendered b).
Proof.
  unfold ordered_by, newest_first. simpl. by rewrite !rendered_lookup_ne.
Qed.

Lemma found_sorted_newest_first (engine : sorter) (q : query) (w : world) :
  StronglySorted newest_first (rendered <$> found_sorted engine q w).
Proof.
  apply (StronglySorted_fmap _ (ordered_by "created_at" (-1))); [apply ordered_rendered|].
  apply Sorted_StronglySorted; [apply _|]. apply (sort_Sorted engine).
Qed.

(** ** Every path of create and update *)

Lemma start_accepted_cases (start_date : option string) :
  start_accepted start_date
  ∨ (truthy_str start_date = true ∧ parsed (text_of start_date) = None).
Proof.
  unfold start_accepted. destruct (truthy_str start_date); [|by left].
  destruct (parsed (text_of start_date)) as [t|]; [left|right]; eauto.
Qed.

(** A create either raises and leaves the announcements as they were, or it
    went through every validation and stored the new record. *)
Lemma create_cases
    (message expiration_date username : string) (start_date : option string)
    (w : world) :
  (∃ e w',
     create_announcement message expiration_date username start_date w = (Raise e, w')
     ∧ announcements_collection w' = announcements_collection w)
  ∨ (registered username w
     ∧ (∃ t, parsed expiration_date = Some t ∧ tzinfo t = None ∧ later t (reading w))
     ∧ start_accepted start_date
     ∧ create_announcement message expiration_date username start_date w
         = (Return (created_record message expiration_date username start_date w),
            created_world message expiration_date username start_date w)).
Proof.
  destruct (decide (registered username w)) as [Hreg|Hno];
    [|left; eauto using create_unauthorized].
  destruct (parsed expiration_date) as [t|] eqn:Hp;
    [|left; eauto using create_invalid_expiration].
  destruct (tzinfo t) as [off|] eqn:Htz;
    [left; eauto using create_aware_expiration|].
  destruct (decide (later t (reading w))) as [Hl|Hl];
    [|left; eauto using create_not_in_future].
  destruct (start_accepted_cases start_date) as [Hs|[Ht Hs]];
    [|left; eauto using create_invalid_start].
  right. eauto 10 using create_success.
Qed.

(** The same for update: the writes come after every check. *)
Lemma update_cases
    (announcement_id message expiration_date username : string)
    (start_date : option string) (w : world) :
  (∃ e w',
     update_announcement announcement_id message expiration_date username start_date w
       = (Raise e, w')
     ∧ announcements_collection w' = announcements_collection w)
  ∨ (registered username w
     ∧ (∃ t, parsed expiration_date = Some t ∧ tzinfo t = None ∧ later t (reading w))
     ∧ start_accepted start_date
     ∧ ∃ obj_id c1 d c2,
         ObjectId_of_str announcement_id = Some obj_id
         ∧ announcements_collection w = c1 ++ d :: c2
         ∧ doc_id d = BOid obj_id
         ∧ Forall (fun x => doc_id x ≠ BOid obj_id) c1
         ∧ update_announcement announcement_id message expiration_date username start_date w
             = (Return (<["_id" := BStr (str (BOid obj_id))]>
                          (as_dict (updated_document message expiration_date start_date d))),
                with_announcements
                  (c1 ++ updated_document message expiration_date start_date d :: c2)
                  (ticked w))).
Proof.
  destruct (decide (registered username w)) as [Hreg|Hno];
    [|left; eauto using update_unauthorized].
  destruct (ObjectId_of_str announcement_id) as [obj_id|] eqn:Hid;
    [|left; eauto using update_invalid_id].
  destruct (first_with_id_total (BOid obj_id) (announcements_collection w))
    as [[d|] Hfirst]; [|left; eauto using update_not_found].
  destruct (parsed expiration_date) as [t|] eqn:Hp;
    [|left; eauto using update_invalid_expiration].
  destruct (tzinfo t) as [off|] eqn:Htz;
    [left; eauto using update_aware_expiration|].
  destruct (decide (later t (reading w))) as [Hl|Hl];
    [|left; eauto using update_not_in_future].
  destruct (start_accepted_cases start_date) as [Hs|[Ht Hs]];
    [|left; eauto using update_invalid_start].
  right. split; [done|]. split; [eauto|]. split; [done|].
  destruct (update_success announcement_id message expiration_date username
              start_date w Hreg _ Hid _ Hfirst _ Hp Htz Hl Hs)
    as (c1 & c2 & Hc & Hc1 & Hu).
  exists obj_id, c1, d, c2. inversion Hfirst; subst. done.
Qed.

(** ** The fields of the records written *)

Lemma update_data_lookup (message expiration_date : string) (start_date : option string) (k : string) :
  update_data_of message expiration_date start_date !! k =
    if decide (k = "message") then Some (BStr message)
    else if decide (k = "expiration_date") then Some (BStr expiration_date)
    else if decide (k = "start_date") then
      (if truthy_str start_date then Some (BStr (text_of start_date)) else None)
    else None.
Proof.
  unfold update_data_of.
  destruct (truthy_str start_date); repeat case_decide; subst; by simplify_map_eq.
Qed.

Lemma unset_start_lookup (d : document) (k : string) :
  doc_fields (apply_update (u_unset {[ "start_date" := BStr EmptyString ]}) d) !! k =
    if decide (k = "start_date") then None else doc_fields d !! k.
Proof.
  simpl. rewrite map_lookup_filter. case_decide; subst.
  - destruct (doc_fields d !! "start_date"); [|done]. simpl.
    rewrite option_guard_False; [done|]. simpl. by rewrite lookup_singleton_eq.
  - destruct (doc_fields d !! k); [|done]. simpl.
    rewrite option_guard_True; [done|]. simpl. by rewrite lookup_singleton_ne.
Qed.

Lemma set_lookup (fields : dict) (d : document) (k : string) :
  k ≠ "_id" →
  doc_fields (apply_update (u_set fields) d) !! k =
    match fields !! k with
    | Some v => Some v
    | None => doc_fields d !! k
    end.
Proof.
  intros Hk. simpl. rewrite lookup_union, lookup_delete_ne by done.
  by destruct (fields !! k), (doc_fields d !! k).
Qed.

Lemma updated_document_lookup (message expiration_date : string) (start_date : option string) (d : document) (k : string) :
  as_dict (updated_document message expiration_date start_date d) !! k =
    if decide (k = "_id") then Some (doc_id d)
    else if decide (k = "message") then Some (BStr message)
    else if decide (k = "expiration_date") then Some (BStr expiration_date)
    else if decide (k = "start_date") then
      (if truthy_str start_date then Some (BStr (text_of start_date)) else None)
    else as_dict d !! k.
Proof.
  unfold updated_document.
  case_decide as Hid; [subst; rewrite as_dict_id; by destruct (truthy_str start_date)|].
  rewrite !as_dict_lookup_ne by done.
  rewrite set_lookup, update_data_lookup by done.
  destruct (truthy_str start_date) eqn:Ht.
  - by repeat case_decide.
  - rewrite unset_start_lookup. by repeat case_decide.
Qed.

Lemma new_announcement_lookup
    (message expiration_date username : string) (start_date : option string)
    (created_at : string) (k : string) :
  new_announcement message expiration_date username start_date created_at !! k =
    if decide (k = "message") then Some (BStr message)
    else if decide (k = "expiration_date") then Some (BStr expiration_date)
    else if decide (k = "created_by") then Some (BStr username)
    else if decide (k = "created_at") then Some (BStr created_at)
    else if decide (k = "start_date") then
      (if truthy_str start_date then Some (BStr (text_of start_date)) else None)
    else None.
Proof.
  unfold new_announcement.
  destruct (truthy_str start_date); repeat case_decide; subst; by simplify_map_eq.
Qed.

(** The document a create stores is the dict it built, under the new id. *)
Lemma created_world_announcements
    (message expiration_date username : string) (start_date : option string)
    (w : world) :
  announcements_collection
    (created_world message expiration_date username start_date w)
  = announcements_collection w ++
      [ mkDocument (BOid (object_ids w (ids_drawn w)))
          (new_announcement message expiration_date username start_date
             (isoformat (reading (ticked w)) +:+ "Z")) ].
Proof.
  unfold created_world, insert_one. simpl. do 3 f_equal.
  apply delete_id. by rewrite new_announcement_lookup.
Qed.

(** ** Facts about the example school *)

Lemma mrodriguez_registered (c : collection) (n m : nat) :
  registered "mrodriguez" (mkWorld c example_teachers example_clock n example_ids m).
Proof. eexists. split; [apply list_elem_of_here|done]. Defined.

Lemma stranger_not_registered (c : collection) (n m : nat) :
  ¬ registered "stranger" (mkWorld c example_teachers example_clock n example_ids m).
Proof.
  intros (t & Hin & Hid). apply list_elem_of_singleton in Hin. by subst.
Defined.

Lemma winter_concert_first :
  first_with_id (BOid (mkObjectId "announce-new"))
    (announcements_collection example_school) (Some winter_concert).
Proof.
  apply (first_found _ _ [science_fair] winter_concert []); [done..|].
  by repeat constructor.
Defined.

Lemma winter_concert_stored : winter_concert ∈ announcements_collection example_school.
Proof. apply list_elem_of_further, list_elem_of_here. Defined.

(** ** The claims of the specification *)

(** C1. At a call of list-active that reads the clock as [now], a stored
    announcement is in the returned sequence (with its id as text) if and
    only if its expiration date is at or after [now] and its start date is
    absent or at or before [now]; nothing else is returned; and the teacher
    directory plays no part in the answer. *)
Theorem active_listing_is_the_active_announcements
    (engine : sorter) (w : world) (A : document) :
  A ∈ announcements_collection w →
  let now := isoformat (reading w) +:+ "Z" in
  ∃ l,
    get_active_announcements engine w = (Return l, ticked w)
    ∧ (rendered (as_dict A) ∈ l ↔ active_at now (as_dict A))
    ∧ (∀ a, a ∈ l →
         ∃ A', A' ∈ announcements_collection w ∧ a = rendered (as_dict A')
               ∧ active_at now (as_dict A'))
    ∧ (∀ teachers,
         get_active_announcements engine (with_teachers teachers w)
           = (Return l, ticked (with_teachers teachers w))).
Proof.
  intros HA now. eexists. split; [apply get_active_announcements_result|].
  fold now. split; [|split].
  - rewrite list_elem_of_fmap. split.
    + intros (a & Hr & Ha). apply elem_of_found_sorted, elem_of_find in Ha.
      destruct Ha as (A' & _ & -> & Hm). apply matches_active_query in Hm.
      apply (active_at_same_dates now (as_dict A')); [| |done].
      * by rewrite <- (rendered_lookup_ne (as_dict A')), <- Hr, rendered_lookup_ne.
      * by rewrite <- (rendered_lookup_ne (as_dict A')), <- Hr, rendered_lookup_ne.
    + intros Hact. exists (as_dict A). split; [done|].
      apply elem_of_found_sorted, elem_of_find. exists A.
      split; [done|]. split; [done|]. by apply matches_active_query.
  - intros a Ha. apply list_elem_of_fmap in Ha as (b & -> & Hb).
    apply elem_of_found_sorted, elem_of_find in Hb.
    destruct Hb as (A' & HA' & -> & Hm). exists A'. split; [done|].
    split; [done|]. by apply matches_active_query.
  - intros teachers. by rewrite get_active_announcements_result.
Qed.

(** C2, as amended. A create by a registered username whose expiration date
    parses to a datetime without UTC offset, at a valid clock reading: when
    the parsed date is equal to or earlier than the reading it fails with
    ValidationError and stores nothing; when it is later (by a second, or
    by any amount) and the start date is absent, empty or parses, it
    succeeds and the new record is stored at the end of the collection. *)
Theorem create_checks_expiration_in_future
    (message expiration_date username : string) (start_date : option string)
    (w : world) (t : datetime) :
  registered username w →
  parsed expiration_date = Some t →
  tzinfo t = None →
  in_range (reading w) →
  (wall_microseconds t ≤ wall_microseconds (reading w) →
   create_announcement message expiration_date username start_date w
     = (Raise ValidationError, ticked w))
  ∧ (wall_microseconds (reading w) < wall_microseconds t → start_accepted start_date →
     ∃ r w',
       create_announcement message expiration_date username start_date w = (Return r, w')
       ∧ r = created_record message expiration_date username start_date w
       ∧ announcements_collection w'
         = announcements_collection w ++
             [ mkDocument (BOid (object_ids w (ids_drawn w)))
                 (new_announcement message expiration_date username start_date
                    (isoformat (reading (ticked w)) +:+ "Z")) ]).
Proof.
  intros Hreg Hp Htz Hnow.
  pose proof (later_chronological t (reading w) (fromisoformat_in_range _ _ Hp) Hnow)
    as Hlater.
  split.
  - intros Hle. eapply create_not_in_future; [done..|]. rewrite Hlater. lia.
  - intros Hlt Hs. apply Hlater in Hlt.
    eexists _, _. split; [by eapply create_success|].
    split; [done|]. apply created_world_announcements.
Qed.

(** C3, as amended. When the expiration date of a create or update, after
    its Z is replaced by "+00:00", is read by [fromisoformat] as a datetime
    with a UTC offset and the request reaches the future-date check (the
    username is registered and, for update, the id is well formed and names
    a stored record), the comparison with the naive clock reading raises
    TypeError; the handler for ValueError does not catch it, the request
    ends with it, it is none of the errors of the specification, and
    nothing is written. *)
Theorem offset_expiration_raises_TypeError
    (announcement_id message expiration_date username : string)
    (start_date : option string) (w : world) (t : datetime) (off : Z) :
  registered username w →
  parsed expiration_date = Some t →
  tzinfo t = Some off →
  datetime_le t (reading w) = Raise TypeError
  ∧ except_ValueError TypeError = false
  ∧ ¬ in_taxonomy TypeError
  ∧ create_announcement message expiration_date username start_date w
      = (Raise TypeError, ticked w)
  ∧ (∀ obj_id d,
       ObjectId_of_str announcement_id = Some obj_id →
       d ∈ announcements_collection w → doc_id d = BOid obj_id →
       update_announcement announcement_id message expiration_date username start_date w
         = (Raise TypeError, ticked w)).
Proof.
  intros Hreg Hp Htz. split.
  { unfold datetime_le, datetime_cmp. rewrite Htz.
    change (tzinfo (reading w)) with (@None Z). by rewrite decide_False. }
  split; [done|]. split.
  { unfold in_taxonomy. rewrite !elem_of_cons, elem_of_nil.
    intros [H|[H|[H|[H|[H|[H|[]]]]]]]; discriminate H. }
  split; [by eapply create_aware_expiration|].
  intros obj_id d Hid Hin Hd.
  destruct (first_with_id_elem _ _ _ Hin Hd) as [x Hx].
  by eapply update_aware_expiration.
Qed.

(** C4. An update that passes every validation rewrites the first record
    with the given id, in place: message and expiration date are the given
    ones; the start date is the given one when it is given and not empty,
    and is absent otherwise; every other field, with the id, the author and
    the creation time, is as before. The record is returned with its id as
    text, and the other records are as before. *)
Theorem update_replaces_fields
    (announcement_id message expiration_date username : string)
    (start_date : option string) (w : world)
    (obj_id : ObjectId) (d : document) (t : datetime) :
  registered username w →
  ObjectId_of_str announcement_id = Some obj_id →
  first_with_id (BOid obj_id) (announcements_collection w) (Some d) →
  parsed expiration_date = Some t → tzinfo t = None → later t (reading w) →
  start_accepted start_date →
  ∃ c1 c2 d',
    announcements_collection w = c1 ++ d :: c2
    ∧ update_announcement announcement_id message expiration_date username start_date w
        = (Return (<["_id" := BStr (str (BOid obj_id))]> (as_dict d')),
           with_announcements (c1 ++ d' :: c2) (ticked w))
    ∧ as_dict d' !! "message" = Some (BStr message)
    ∧ as_dict d' !! "expiration_date" = Some (BStr expiration_date)
    ∧ as_dict d' !! "start_date"
        = (if truthy_str start_date then Some (BStr (text_of start_date)) else None)
    ∧ as_dict d' !! "_id" = as_dict d !! "_id"
    ∧ as_dict d' !! "created_by" = as_dict d !! "created_by"
    ∧ as_dict d' !! "created_at" = as_dict d !! "created_at"
    ∧ (∀ k, k ∉ ["message"; "expiration_date"; "start_date"] →
         as_dict d' !! k = as_dict d !! k).
Proof.
  intros Hreg Hid Hfirst Hp Htz Hl Hs.
  destruct (update_success announcement_id message expiration_date username
              start_date w Hreg _ Hid _ Hfirst _ Hp Htz Hl Hs)
    as (c1 & c2 & Hc & Hc1 & Hu).
  exists c1, c2, (updated_document message expiration_date start_date d).
  split; [done|]. split; [done|].
  repeat split; try (by rewrite updated_document_lookup, ?as_dict_id).
  intros k Hk. rewrite updated_document_lookup.
  case_decide; [subst; by rewrite as_dict_id|].
  rewrite !not_elem_of_cons in Hk. destruct Hk as (? & ? & ? & _).
  by repeat case_decide.
Qed.

(** C5. List-all, create, update and delete called with a username that is
    not in the teacher directory fail with Unauthorized (401), whatever the
    other inputs are, and leave the world as it was. *)
Theorem unregistered_is_unauthorized
    (engine : sorter) (w : world)
    (announcement_id message expiration_date username : string)
    (start_date : option string) :
  ¬ registered username w →
  get_all_announcements engine username w = (Raise Unauthorized, w)
  ∧ create_announcement message expiration_date username start_date w
      = (Raise Unauthorized, w)
  ∧ update_announcement announcement_id message expiration_date username start_date w
      = (Raise Unauthorized, w)
  ∧ delete_announcement announcement_id username w = (Raise Unauthorized, w).
Proof.
  intros Hno. repeat split.
  - unfold get_all_announcements.
    by rewrite (bind_Raise _ _ _ _ _ (verify_teacher_unregistered _ _ Hno)).
  - by apply create_unauthorized.
  - by apply update_unauthorized.
  - by apply delete_unauthorized.
Qed.

(** C6. A create or an update that ends with an exception (one of the
    errors of the specification, or any other) leaves the announcements as
    they were. In particular, when a request reaches the date validations
    and [fromisoformat] raises ValueError on its expiration date, or reads
    the expiration date as a later naive datetime and raises ValueError on
    its start date, the request ends with InvalidFormat, and no insert, set
    or unset was issued. Which texts these are is the interpreter's
    matter: the statement holds for every [fromisoformat]. *)
Theorem failed_write_leaves_store
    (announcement_id message expiration_date username : string)
    (start_date : option string) (w : world) :
  (∀ e w',
     create_announcement message expiration_date username start_date w = (Raise e, w') →
     announcements_collection w' = announcements_collection w)
  ∧ (∀ e w',
       update_announcement announcement_id message expiration_date username start_date w
         = (Raise e, w') →
       announcements_collection w' = announcements_collection w)
  ∧ (registered username w →
     (parsed expiration_date = None →
      create_announcement message expiration_date username start_date w
        = (Raise InvalidExpirationFormat, w))
     ∧ (∀ t, parsed expiration_date = Some t → tzinfo t = None → later t (reading w) →
        truthy_str start_date = true → parsed (text_of start_date) = None →
        create_announcement message expiration_date username start_date w
          = (Raise InvalidStartFormat, ticked w)))
  ∧ (registered username w →
     ∀ obj_id d,
       ObjectId_of_str announcement_id = Some obj_id →
       d ∈ announcements_collection w → doc_id d = BOid obj_id →
       (parsed expiration_date = None →
        update_announcement announcement_id message expiration_date username start_date w
          = (Raise InvalidExpirationFormat, w))
       ∧ (∀ t, parsed expiration_date = Some t → tzinfo t = None → later t (reading w) →
          truthy_str start_date = true → parsed (text_of start_date) = None →
          update_announcement announcement_id message expiration_date username start_date w
            = (Raise InvalidStartFormat, ticked w))).
Proof.
  split; [|split; [|split]].
  - intros e w' Hc.
    destruct (create_cases message expiration_date username start_date w)
      as [(e0 & w0 & Hr & Hsame)|(_ & _ & _ & Hr)]; rewrite Hr in Hc; by simplify_eq.
  - intros e w' Hu.
    destruct (update_cases announcement_id message expiration_date username start_date w)
      as [(e0 & w0 & Hr & Hsame)|(_ & _ & _ & ? & ? & ? & ? & _ & _ & _ & _ & Hr)];
      rewrite Hr in Hu; by simplify_eq.
  - intros Hreg. split.
    + by apply create_invalid_expiration.
    + intros t Hp Htz Hl Ht Hs. by eapply create_invalid_start.
  - intros Hreg obj_id d Hid Hin Hd.
    destruct (first_with_id_elem _ _ _ Hin Hd) as [x Hx]. split.
    + intros Hp. by eapply update_invalid_expiration.
    + intros t Hp Htz Hl Ht Hs. by eapply update_invalid_start.
Qed.

(** C7. Delete by a registered username: an id that is not in the store's
    format fails with InvalidId; a well-formed id for which the delete
    removes nothing fails with NotFound and changes nothing; otherwise the
    first record with that id is removed and the confirmation message is
    returned. *)
Theorem delete_announcement_outcomes (announcement_id username : string) (w : world) :
  registered username w →
  (ObjectId_of_str announcement_id = None →
   delete_announcement announcement_id username w = (Raise InvalidIdError, w))
  ∧ (∀ obj_id, ObjectId_of_str announcement_id = Some obj_id →
     (delete_one (by_id (BOid obj_id)) (announcements_collection w)).2 = 0 →
     delete_announcement announcement_id username w = (Raise NotFound, w))
  ∧ (∀ obj_id, ObjectId_of_str announcement_id = Some obj_id →
     (delete_one (by_id (BOid obj_id)) (announcements_collection w)).2 ≠ 0 →
     ∃ c1 d c2,
       announcements_collection w = c1 ++ d :: c2
       ∧ doc_id d = BOid obj_id
       ∧ Forall (fun x => doc_id x ≠ BOid obj_id) c1
       ∧ delete_announcement announcement_id username w
           = (Return deleted_message, with_announcements (c1 ++ c2) w)).
Proof.
  intros Hreg. split; [by apply delete_invalid_id|].
  split; intros obj_id Hid Hcount; rewrite (delete_well_formed _ _ _ Hreg _ Hid).
  - destruct (first_with_id_total (BOid obj_id) (announcements_collection w))
      as [[d|] Hfirst]; pose proof (delete_one_by_id _ _ _ Hfirst) as Hdel; simpl in Hdel.
    + destruct Hdel as (c1 & c2 & _ & _ & Hdel). by rewrite Hdel in Hcount.
    + rewrite Hdel. simpl. by rewrite with_announcements_same.
  - destruct (first_with_id_total (BOid obj_id) (announcements_collection w))
      as [[d|] Hfirst]; pose proof (delete_one_by_id _ _ _ Hfirst) as Hdel; simpl in Hdel.
    + destruct Hdel as (c1 & c2 & Hc & Hc1 & Hdel). exists c1, d, c2.
      rewrite Hdel. simpl. inversion Hfirst; subst. done.
    + by rewrite Hdel in Hcount.
Qed.

(** C8. The sequences list-active and list-all return are in descending
    order of [created_at]: every record is at least as new as every record
    after it. Among records created at the same instant the order is the
    store's choice: two sorts that both keep the store's promise return the
    two records of the example in opposite orders. *)
Theorem listings_are_newest_first :
  (∀ engine w,
     ∃ l, get_active_announcements engine w = (Return l, ticked w)
          ∧ StronglySorted newest_first l)
  ∧ (∀ engine username w l w',
       get_all_announcements engine username w = (Return l, w') →
       StronglySorted newest_first l)
  ∧ (rendered (as_dict bake_sale) !! "created_at"
       = rendered (as_dict book_fair) !! "created_at"
     ∧ rendered (as_dict bake_sale) ≠ rendered (as_dict book_fair)
     ∧ get_all_announcements merge_sorter "mrodriguez" tied_school
         = (Return [rendered (as_dict bake_sale); rendered (as_dict book_fair)],
            tied_school)
     ∧ get_all_announcements reversed_sorter "mrodriguez" tied_school
         = (Return [rendered (as_dict book_fair); rendered (as_dict bake_sale)],
            tied_school)).
Proof.
  split; [|split].
  - intros engine w. eexists. split; [apply get_active_announcements_result|].
    apply found_sorted_newest_first.
  - intros engine username w l w' Hl.
    destruct (decide (registered username w)) as [Hreg|Hno].
    + rewrite get_all_announcements_result in Hl by done. simplify_eq.
      apply found_sorted_newest_first.
    + unfold get_all_announcements in Hl.
      by rewrite (bind_Raise _ _ _ _ _ (verify_teacher_unregistered _ _ Hno)) in Hl.
  - split; [done|]. split; [|by_evaluation].
    intros Heq. apply (f_equal (fun a : dict => a !! "message")) in Heq.
    vm_compute in Heq. discriminate Heq.
Qed.

(** C9. After a successful create with message M and expiration date T, a
    list-all by any registered username returns the created record: its
    message is M, its expiration date is T, and its id is the text of the
    ObjectId the store assigned, under which the record is stored last. *)
Theorem created_is_listed
    (engine : sorter) (message expiration_date username : string)
    (start_date : option string) (w w' : world) (r : dict) (reader : string) :
  create_announcement message expiration_date username start_date w = (Return r, w') →
  registered reader w' →
  ∃ l,
    get_all_announcements engine reader w' = (Return l, w')
    ∧ r ∈ l
    ∧ r !! "message" = Some (BStr message)
    ∧ r !! "expiration_date" = Some (BStr expiration_date)
    ∧ r !! "_id" = Some (BStr (str (BOid (object_ids w (ids_drawn w)))))
    ∧ ∃ d, last (announcements_collection w') = Some d
           ∧ doc_id d = BOid (object_ids w (ids_drawn w)).
Proof.
  intros Hc Hreg.
  destruct (create_cases message expiration_date username start_date w)
    as [(e0 & w0 & Hr & _)|(_ & _ & _ & Hr)]; rewrite Hr in Hc; simplify_eq.
  eexists. split; [by apply get_all_announcements_result|].
  pose proof (created_world_announcements message expiration_date username start_date w)
    as Hstored.
  split; [|repeat split].
  - apply list_elem_of_fmap. eexists. split; cycle 1.
    + apply elem_of_found_sorted. rewrite find_everything, Hstored, fmap_app.
      apply elem_of_app. right. apply list_elem_of_singleton. reflexivity.
    + by rewrite rendered_as_dict.
  - unfold created_record. rewrite lookup_insert_ne by done.
    by rewrite new_announcement_lookup.
  - unfold created_record. rewrite lookup_insert_ne by done.
    by rewrite new_announcement_lookup.
  - unfold created_record. by rewrite lookup_insert_eq.
  - eexists. rewrite Hstored, last_snoc. done.
Qed.


(** ** Further properties of the router *)

Global Instance frame_refl : Reflexive frame.
Proof. intros w. by repeat split. Qed.

Global Instance frame_trans : Transitive frame.
Proof.
  intros w1 w2 w3 (Ht1 & Hc1 & Ho1 & Hr1 & Hi1) (Ht2 & Hc2 & Ho2 & Hr2 & Hi2).
  repeat split; try congruence; lia.
Qed.

Create HintDb framed discriminated.

Lemma framed_ret {A} (a : A) : framed (ret a).
Proof. intros w. reflexivity. Qed.

Lemma framed_raise {A} (e : exn) : framed (@raise A e).
Proof. intros w. reflexivity. Qed.

Lemma framed_bind {A B} (m : M A) (k : A → M B) :
  framed m → (∀ a, framed (k a)) → framed (bind m k).
Proof.
  intros Hm Hk w. unfold bind. specialize (Hm w).
  destruct (m w) as [[a|e] w1]; simpl in *; [|done].
  trans w1; [done|]. apply Hk.
Qed.

Lemma framed_try_except {A} (body : M A) (caught : exn → bool) (handler : M A) :
  framed body → framed handler → framed (try_except body caught handler).
Proof.
  intros Hb Hh w. unfold try_except. specialize (Hb w).
  destruct (body w) as [[a|e] w1]; simpl in *; [done|].
  destruct (caught e); [|done]. trans w1; [done|]. apply Hh.
Qed.

Lemma framed_or_raise {A} (e : exn) (r : option A) : framed (or_raise e r).
Proof. destruct r; [apply framed_ret|apply framed_raise]. Qed.

Lemma framed_of_outcome {A} (r : outcome A) : framed (of_outcome r).
Proof. intros w. reflexivity. Qed.

Lemma framed_utcnow : framed utcnow.
Proof. intros w. repeat split; simpl; lia. Qed.

Lemma framed_get_announcements : framed get_announcements.
Proof. intros w. reflexivity. Qed.

Lemma framed_put_announcements (c : collection) : framed (put_announcements c).
Proof. intros w. by repeat split. Qed.

Lemma framed_get_teachers : framed get_teachers.
Proof. intros w. reflexivity. Qed.

Lemma framed_new_ObjectId : framed new_ObjectId.
Proof. intros w. repeat split; simpl; lia. Qed.

Lemma framed_if {A} (b : bool) (m1 m2 : M A) :
  framed m1 → framed m2 → framed (if b then m1 else m2).
Proof. by destruct b. Qed.

Local Hint Resolve framed_ret framed_raise framed_or_raise framed_of_outcome
  framed_utcnow framed_get_announcements framed_put_announcements
  framed_get_teachers framed_new_ObjectId : framed.
Local Hint Extern 2 (framed (bind _ _)) => apply framed_bind; [|intros] : framed.
Local Hint Extern 2 (framed (try_except _ _ _)) => apply framed_try_except : framed.
Local Hint Extern 2 (framed (if _ then _ else _)) => apply framed_if : framed.
Local Hint Extern 3 (framed (match ?x with _ => _ end)) => destruct x : framed.

Lemma framed_stringify_ids (l : list dict) : framed (stringify_ids l).
Proof. induction l; simpl; auto 10 with framed. Qed.
Local Hint Resolve framed_stringify_ids : framed.

Lemma framed_verify_teacher u : framed (verify_teacher u).
Proof. unfold verify_teacher. auto 10 with framed. Qed.

Lemma framed_validate_expiration_date e : framed (validate_expiration_date e).
Proof. unfold validate_expiration_date. auto 10 with framed. Qed.

Lemma framed_validate_start_date s : framed (validate_start_date s).
Proof. unfold validate_start_date. auto 10 with framed. Qed.

Lemma framed_parse_id s : framed (parse_id s).
Proof. unfold parse_id. auto 10 with framed. Qed.

Local Hint Resolve framed_verify_teacher framed_validate_expiration_date
  framed_validate_start_date framed_parse_id : framed.

(** X1. No handler writes the teacher directory, replaces the clock or the
    id supply: whatever the request and its outcome, the three are as
    before and the counts of clock readings and of ids drawn only grow. *)
Theorem handlers_keep_the_frame (engine : sorter)
    (announcement_id message expiration_date username : string)
    (start_date : option string) :
  framed (get_active_announcements engine)
  ∧ framed (get_all_announcements engine username)
  ∧ framed (create_announcement message expiration_date username start_date)
  ∧ framed (update_announcement announcement_id message expiration_date username start_date)
  ∧ framed (delete_announcement announcement_id username).
Proof.
  split; [|split; [|split; [|split]]].
  - unfold get_active_announcements, find_sorted. auto 10 with framed.
  - unfold get_all_announcements, find_sorted. auto 10 with framed.
  - unfold create_announcement, insert_announcement. auto 20 with framed.
  - unfold update_announcement, update_announcements. auto 20 with framed.
  - unfold delete_announcement. auto 20 with framed.
Qed.

(** X2. List-all by a registered username returns every stored
    announcement exactly once, each with its id as text: the result is a
    rearrangement of the rendered collection (expired and not yet started
    records included), and the world is unchanged. *)
Theorem list_all_is_the_whole_store (engine : sorter) (username : string) (w : world) :
  registered username w →
  ∃ l,
    get_all_announcements engine username w = (Return l, w)
    ∧ l ≡ₚ rendered <$> (as_dict <$> announcements_collection w)
    ∧ length l = length (announcements_collection w).
Proof.
  intros Hreg. eexists. split; [by apply get_all_announcements_result|].
  assert (Hp : rendered <$> found_sorted engine (q_and []) w
               ≡ₚ rendered <$> (as_dict <$> announcements_collection w)).
  { unfold found_sorted. by rewrite (sort_Permutation engine), find_everything. }
  split; [done|]. by rewrite Hp, !length_fmap.
Qed.

(** X3. The listings are read-only. List-active always returns (it has
    no error path) and changes nothing but the count of clock readings;
    list-all leaves the world exactly as it was, whether it returns or
    raises. *)
Theorem listings_are_read_only (engine : sorter) (username : string) (w : world) :
  (∃ l, get_active_announcements engine w = (Return l, ticked w))
  ∧ (get_all_announcements engine username w).2 = w.
Proof.
  split.
  - eexists. apply get_active_announcements_result.
  - destruct (decide (registered username w)) as [Hreg|Hno].
    + by rewrite get_all_announcements_result.
    + unfold get_all_announcements.
      by rewrite (bind_Raise _ _ _ _ _ (verify_teacher_unregistered _ _ Hno)).
Qed.

Lemma find_submseteq (q : query) (c : collection) : find q c ⊆+ as_dict <$> c.
Proof. unfold find. apply fmap_submseteq, sublist_submseteq, sublist_filter. Qed.

(** X4. Whatever list-active returns, list-all returns too, with the same
    multiplicity: on the same store the active listing is a sub-multiset of
    the full listing. *)
Theorem active_listing_within_full_listing
    (engine engine' : sorter) (username : string) (w : world) :
  registered username w →
  ∃ active everything,
    get_active_announcements engine w = (Return active, ticked w)
    ∧ get_all_announcements engine' username w = (Return everything, w)
    ∧ active ⊆+ everything.
Proof.
  intros Hreg. eexists _, _.
  split; [apply get_active_announcements_result|].
  split; [by apply get_all_announcements_result|].
  apply fmap_submseteq. unfold found_sorted.
  rewrite !sort_Permutation, find_everything. apply find_submseteq.
Qed.

(** X5. A delete that raises (Unauthorized, InvalidId, NotFound) leaves
    the announcements as they were; a delete that returns has removed
    exactly one record and kept the others in their order. *)
Theorem delete_writes_only_on_success (announcement_id username : string) (w : world) :
  match delete_announcement announcement_id username w with
  | (Raise _, w') => announcements_collection w' = announcements_collection w
  | (Return _, w') =>
      announcements_collection w' `sublist_of` announcements_collection w
      ∧ S (length (announcements_collection w')) = length (announcements_collection w)
  end.
Proof.
  destruct (decide (registered username w)) as [Hreg|Hno];
    [|by rewrite delete_unauthorized].
  destruct (ObjectId_of_str announcement_id) as [obj_id|] eqn:Hid;
    [|by rewrite delete_invalid_id].
  rewrite (delete_well_formed _ _ _ Hreg _ Hid).
  destruct (first_with_id_total (BOid obj_id) (announcements_collection w))
    as [[d|] Hfirst]; pose proof (delete_one_by_id _ _ _ Hfirst) as Hdel; simpl in Hdel.
  - destruct Hdel as (c1 & c2 & Hc & _ & ->). simpl. rewrite Hc. split.
    + apply sublist_app; [done|]. by apply sublist_cons.
    + rewrite !length_app. simpl. lia.
  - by rewrite Hdel.
Qed.

(** X6. Update checks the id before the dates: for a registered username
    a malformed id fails with InvalidId and a well-formed id that no stored
    record has fails with NotFound, whatever the message, the expiration
    date and the start date are (unparsable dates included), and nothing
    is written. *)
Theorem update_checks_id_before_dates
    (announcement_id message expiration_date username : string)
    (start_date : option string) (w : world) :
  registered username w →
  (ObjectId_of_str announcement_id = None →
   update_announcement announcement_id message expiration_date username start_date w
     = (Raise InvalidIdError, w))
  ∧ (∀ obj_id,
       ObjectId_of_str announcement_id = Some obj_id →
       BOid obj_id ∉ doc_id <$> announcements_collection w →
       update_announcement announcement_id message expiration_date username start_date w
         = (Raise NotFound, w)).
Proof.
  intros Hreg. split; [by apply update_invalid_id|].
  intros obj_id Hid Hnot. eapply update_not_found; [done..|]. constructor.
  apply Forall_forall. intros x Hx Heq. apply Hnot.
  apply list_elem_of_fmap. by exists x.
Qed.

Lemma first_match_unique (v : bson) (c1 c2 l1 l2 : collection) (x y : document) :
  c1 ++ x :: c2 = l1 ++ y :: l2 →
  doc_id x = v → doc_id y = v →
  Forall (fun d => doc_id d ≠ v) c1 → Forall (fun d => doc_id d ≠ v) l1 →
  c1 = l1 ∧ x = y ∧ c2 = l2.
Proof.
  intros Heq Hx Hy Hc1. revert l1 Heq.
  induction Hc1 as [|z c1 Hz _ IH]; intros [|u l1] Heq Hl1; simplify_eq/=; try done.
  - by inversion Hl1.
  - inversion Hl1; subst. destruct (IH l1) as (-> & -> & ->); done.
Qed.

Lemma updated_document_id (message expiration_date : string) (start_date : option string)
    (d : document) :
  doc_id (updated_document message expiration_date start_date d) = doc_id d.
Proof. unfold updated_document. by destruct (truthy_str start_date). Qed.

(** A delete that returns removed the first record with the id. *)
Lemma delete_cases (announcement_id username : string) (w : world) :
  (∃ e, delete_announcement announcement_id username w = (Raise e, w))
  ∨ (registered username w
     ∧ ∃ obj_id c1 d c2,
         ObjectId_of_str announcement_id = Some obj_id
         ∧ announcements_collection w = c1 ++ d :: c2
         ∧ doc_id d = BOid obj_id
         ∧ Forall (fun x => doc_id x ≠ BOid obj_id) c1
         ∧ delete_announcement announcement_id username w
             = (Return deleted_message, with_announcements (c1 ++ c2) w)).
Proof.
  destruct (decide (registered username w)) as [Hreg|Hno];
    [|left; eauto using delete_unauthorized].
  destruct (ObjectId_of_str announcement_id) as [obj_id|] eqn:Hid;
    [|left; eauto using delete_invalid_id].
  rewrite (delete_well_formed _ _ _ Hreg _ Hid).
  destruct (first_with_id_total (BOid obj_id) (announcements_collection w))
    as [[d|] Hfirst]; pose proof (delete_one_by_id _ _ _ Hfirst) as Hdel; simpl in Hdel.
  - destruct Hdel as (c1 & c2 & Hc & Hc1 & ->). right. split; [done|].
    exists obj_id, c1, d, c2. inversion Hfirst; subst. done.
  - left. rewrite Hdel. simpl. rewrite with_announcements_same. eauto.
Qed.

Lemma update_ids_unchanged
    (announcement_id message expiration_date username : string)
    (start_date : option string) (w : world) :
  doc_id <$> announcements_collection
               (update_announcement announcement_id message expiration_date
                  username start_date w).2
  = doc_id <$> announcements_collection w.
Proof.
  destruct (update_cases announcement_id message expiration_date username start_date w)
    as [(e0 & w0 & -> & Hsame)
       |(_ & _ & _ & obj_id & c1 & d & c2 & _ & Hc & _ & _ & ->)]; simpl.
  - by rewrite Hsame.
  - by rewrite Hc, !fmap_app, !fmap_cons, updated_document_id.
Qed.

(** X7. Update never adds, removes or reorders records and never changes
    an id: after any update call, whatever its outcome, the ids of the
    stored records are the same, in the same order. *)
Theorem update_keeps_ids
    (announcement_id message expiration_date username : string)
    (start_date : option string) (w : world) :
  doc_id <$> announcements_collection
               (update_announcement announcement_id message expiration_date
                  username start_date w).2
  = doc_id <$> announcements_collection w
  ∧ length (announcements_collection
              (update_announcement announcement_id message expiration_date
                 username start_date w).2)
    = length (announcements_collection w).
Proof.
  pose proof (update_ids_unchanged announcement_id message expiration_date username
                start_date w) as Hids.
  split; [done|]. apply (f_equal length) in Hids. by rewrite !length_fmap in Hids.
Qed.

(** X8. Uniqueness of ids is kept. From a collection where no two records
    share an id, an update or a delete (whatever the outcome) leaves such a
    collection, and so does a create when the ObjectId drawn for it is not
    in use. *)
Theorem handlers_keep_ids_unique
    (announcement_id message expiration_date username : string)
    (start_date : option string) (w : world) :
  unique_ids (announcements_collection w) →
  (BOid (object_ids w (ids_drawn w)) ∉ doc_id <$> announcements_collection w →
   unique_ids (announcements_collection
                 (create_announcement message expiration_date username start_date w).2))
  ∧ unique_ids (announcements_collection
                  (update_announcement announcement_id message expiration_date
                     username start_date w).2)
  ∧ unique_ids (announcements_collection
                  (delete_announcement announcement_id username w).2).
Proof.
  unfold unique_ids. intros Hu. split; [|split].
  - intros Hfresh.
    destruct (create_cases message expiration_date username start_date w)
      as [(e0 & w0 & -> & Hsame)|(_ & _ & _ & ->)]; cbn [snd].
    + by rewrite Hsame.
    + rewrite created_world_announcements, fmap_app. apply NoDup_app.
      split; [done|]. split; [|apply NoDup_singleton].
      intros x Hx Hin. apply list_elem_of_singleton in Hin. by subst.
  - by rewrite update_ids_unchanged.
  - destruct (delete_cases announcement_id username w)
      as [(e0 & ->)|(_ & obj_id & c1 & d & c2 & _ & Hc & _ & _ & ->)]; simpl; [done|].
    rewrite Hc in Hu. refine (sublist_NoDup _ _ Hu _).
    apply fmap_sublist, sublist_app; [done|]. by apply sublist_cons.
Qed.

(** X9. With unique ids, a deleted announcement is gone: after a delete
    that returned, the same delete fails with NotFound, and so does every
    update under that id. *)
Theorem deleted_id_is_gone
    (announcement_id username : string) (w w' : world) (confirmation : dict) :
  unique_ids (announcements_collection w) →
  delete_announcement announcement_id username w = (Return confirmation, w') →
  delete_announcement announcement_id username w' = (Raise NotFound, w')
  ∧ ∀ message expiration_date start_date,
      update_announcement announcement_id message expiration_date username start_date w'
        = (Raise NotFound, w').
Proof.
  unfold unique_ids. intros Hu Hd.
  destruct (delete_cases announcement_id username w)
    as [(e0 & Hr)|(Hreg & obj_id & c1 & d & c2 & Hid & Hc & Hdid & Hc1 & Hr)];
    rewrite Hr in Hd; simplify_eq.
  assert (Hreg' : registered username (with_announcements (c1 ++ c2) w)) by done.
  assert (Hgone : first_with_id (BOid obj_id) (c1 ++ c2) None).
  { constructor. rewrite Hc, fmap_app, fmap_cons in Hu.
    apply NoDup_app in Hu as (_ & Hdisj & Hu2). apply NoDup_cons in Hu2 as [Hnot _].
    apply Forall_app. split; [done|].
    apply Forall_forall. intros x Hx Heq. apply Hnot.
    apply list_elem_of_fmap. exists x. by rewrite Hdid. }
  split.
  - rewrite (delete_well_formed _ _ _ Hreg' _ Hid).
    change (announcements_collection (with_announcements (c1 ++ c2) w)) with (c1 ++ c2).
    by rewrite (delete_one_by_id _ _ _ Hgone).
  - intros message expiration_date start_date.
    by eapply update_not_found.
Qed.

Lemma fromhex_hexlify_byte (c : ascii) (rest : string) :
  fromhex (String (hex_char (N_of_ascii c / 16))
             (String (hex_char (N_of_ascii c mod 16)) rest))
  = String c <$> fromhex rest.
Proof. by destruct c as [[] [] [] [] [] [] [] []]. Qed.

Lemma fromhex_hexlify (b : string) : fromhex (hexlify b) = Some b.
Proof.
  induction b as [|c b IH]; [done|].
  cbn [hexlify]. by rewrite fromhex_hexlify_byte, IH.
Qed.

Lemma length_hexlify (b : string) :
  String.length (hexlify b) = (2 * String.length b)%nat.
Proof. induction b as [|c b IH]; simpl; [done|]. rewrite IH. lia. Qed.

Lemma ObjectId_of_hexlify (o : ObjectId) :
  String.length (binary o) = 12%nat →
  ObjectId_of_str (str (BOid o)) = Some o.
Proof.
  intros Hlen. unfold ObjectId_of_str. simpl.
  rewrite decide_True by (rewrite length_hexlify; lia).
  rewrite fromhex_hexlify. by destruct o.
Qed.

(** X10. The text under which the handlers hand out a twelve-byte ObjectId
    ([str(result.inserted_id)], [str(announcement["_id"])]) is accepted by
    [ObjectId(announcement_id)] and read back as the same ObjectId. *)
Theorem ObjectId_text_round_trip (o : ObjectId) :
  String.length (binary o) = 12%nat →
  String.length (str (BOid o)) = 24%nat
  ∧ ObjectId_of_str (str (BOid o)) = Some o.
Proof.
  intros Hlen. split; [|by apply ObjectId_of_hexlify].
  simpl. rewrite length_hexlify. lia.
Qed.

Lemma first_with_id_fresh (v : bson) (c : collection) (d : document) :
  doc_id d = v → v ∉ doc_id <$> c → first_with_id v (c ++ [d]) (Some d).
Proof.
  intros Hd Hfresh. apply (first_found v _ c d []); [done..|].
  apply Forall_forall. intros x Hx Heq. apply Hfresh.
  apply list_elem_of_fmap. by exists x.
Qed.

(** X11. Create, then delete under the id the create returned: when the
    ObjectId drawn has twelve bytes and was not in use, the delete returns
    the confirmation and the announcements are as they were before the
    create. *)
Theorem create_then_delete
    (message expiration_date username : string) (start_date : option string)
    (w w1 : world) (r : dict) (deleter : string) :
  create_announcement message expiration_date username start_date w = (Return r, w1) →
  String.length (binary (object_ids w (ids_drawn w))) = 12%nat →
  BOid (object_ids w (ids_drawn w)) ∉ doc_id <$> announcements_collection w →
  registered deleter w1 →
  ∃ id,
    r !! "_id" = Some (BStr id)
    ∧ delete_announcement id deleter w1
        = (Return deleted_message,
           with_announcements (announcements_collection w) w1).
Proof.
  intros Hc Hlen Hfresh Hreg.
  destruct (create_cases message expiration_date username start_date w)
    as [(e0 & w0 & Hr & _)|(_ & _ & _ & Hr)]; rewrite Hr in Hc; simplify_eq.
  eexists. split; [unfold created_record; by rewrite lookup_insert_eq|].
  rewrite (delete_well_formed _ _ _ Hreg _ (ObjectId_of_hexlify _ Hlen)).
  rewrite created_world_announcements.
  match goal with
  | |- context [announcements_collection w ++ [?d]] =>
      pose proof (first_with_id_fresh (BOid (object_ids w (ids_drawn w)))
                    (announcements_collection w) d eq_refl Hfresh)
        as Hfirst
  end.
  destruct (delete_one_by_id _ _ _ Hfirst) as (c1 & c2 & Hsplit & Hc1 & ->).
  simpl. do 2 f_equal.
  assert (Hfresh' : Forall (fun x => doc_id x ≠ BOid (object_ids w (ids_drawn w)))
                      (announcements_collection w)).
  { apply Forall_forall. intros x Hx Heq. apply Hfresh.
    apply list_elem_of_fmap. by exists x. }
  symmetry in Hsplit.
  destruct (first_match_unique (BOid (object_ids w (ids_drawn w))) _ _ _ _ _ _ Hsplit)
    as (-> & _ & ->); try done.
  by rewrite app_nil_r.
Qed.

Lemma set_fields_id (fields : dict) (d : document) :
  doc_fields (apply_update (u_set fields) d) !! "_id" = doc_fields d !! "_id".
Proof.
  simpl. rewrite lookup_union, lookup_delete_eq. by destruct (doc_fields d !! "_id").
Qed.

Lemma updated_document_fields_id
    (message expiration_date : string) (start_date : option string) (d : document) :
  doc_fields (updated_document message expiration_date start_date d) !! "_id"
  = doc_fields d !! "_id".
Proof.
  unfold updated_document. rewrite set_fields_id.
  destruct (truthy_str start_date); [done|]. by rewrite unset_start_lookup.
Qed.

Lemma updated_document_idempotent
    (message expiration_date : string) (start_date : option string) (d : document) :
  updated_document message expiration_date start_date
    (updated_document message expiration_date start_date d)
  = updated_document message expiration_date start_date d.
Proof.
  set (d' := updated_document message expiration_date start_date d).
  assert (Hid : doc_id (updated_document message expiration_date start_date d') = doc_id d')
    by apply updated_document_id.
  assert (Hf : doc_fields (updated_document message expiration_date start_date d')
               = doc_fields d').
  { apply map_eq. intros k. destruct (decide (k = "_id")) as [->|Hk].
    - apply updated_document_fields_id.
    - rewrite <- !as_dict_lookup_ne by done. unfold d'.
      rewrite !updated_document_lookup. by repeat case_decide. }
  destruct (updated_document message expiration_date start_date d'), d'.
  simpl in *. by subst.
Qed.

(** X12. PUT is idempotent: when an update succeeded and the same update is
    sent again and succeeds, it returns the same record and leaves the
    announcements as the first left them. *)
Theorem update_is_idempotent
    (announcement_id message expiration_date username : string)
    (start_date : option string) (w w1 w2 : world) (r r' : dict) :
  update_announcement announcement_id message expiration_date username start_date w
    = (Return r, w1) →
  update_announcement announcement_id message expiration_date username start_date w1
    = (Return r', w2) →
  r' = r ∧ announcements_collection w2 = announcements_collection w1.
Proof.
  intros H1 H2.
  destruct (update_cases announcement_id message expiration_date username start_date w)
    as [(e0 & w0 & Hr & _)
       |(_ & _ & _ & obj_id & c1 & d & c2 & Hid & Hc & Hd & Hc1 & Hr)];
    rewrite Hr in H1; simplify_eq.
  destruct (update_cases announcement_id message expiration_date username start_date
              (with_announcements
                 (c1 ++ updated_document message expiration_date start_date d :: c2)
                 (ticked w)))
    as [(e0 & w0 & Hr' & _)
       |(_ & _ & _ & obj_id' & l1 & y & l2 & Hid' & Hc' & Hy & Hl1 & Hr')];
    rewrite Hr' in H2; simplify_eq.
  change (c1 ++ updated_document message expiration_date start_date d :: c2
          = l1 ++ y :: l2) in Hc'.
  destruct (first_match_unique (BOid obj_id) _ _ _ _ _ _ Hc') as (<- & <- & <-);
    [by rewrite updated_document_id|done..|].
  by rewrite updated_document_idempotent.
Qed.

(** X13. The record a successful update returns is the one a list-all by a
    registered username shows afterwards. *)
Theorem updated_is_listed
    (engine : sorter) (announcement_id message expiration_date username : string)
    (start_date : option string) (w w' : world) (r : dict) (reader : string) :
  update_announcement announcement_id message expiration_date username start_date w
    = (Return r, w') →
  registered reader w' →
  ∃ l, get_all_announcements engine reader w' = (Return l, w') ∧ r ∈ l.
Proof.
  intros Hu Hreg.
  destruct (update_cases announcement_id message expiration_date username start_date w)
    as [(e0 & w0 & Hr & _)
       |(_ & _ & _ & obj_id & c1 & d & c2 & Hid & Hc & Hd & Hc1 & Hr)];
    rewrite Hr in Hu; simplify_eq.
  eexists. split; [by apply get_all_announcements_result|].
  apply list_elem_of_fmap. eexists. split; cycle 1.
  - apply elem_of_found_sorted. rewrite find_everything.
    apply list_elem_of_fmap_2.
    change (announcements_collection (with_announcements ?c _)) with c.
    apply elem_of_app. right. apply list_elem_of_here.
  - rewrite rendered_as_dict, updated_document_id, Hd. unfold as_dict.
    by rewrite insert_insert_eq.
Qed.

Lemma string_app_cons (x : ascii) (a b : string) :
  String x a +:+ b = String x (a +:+ b).
Proof. done. Qed.

Lemma string_app_assoc (a b c : string) : (a +:+ b) +:+ c = a +:+ (b +:+ c).
Proof.
  induction a as [|x a IH]; [done|]. rewrite !string_app_cons. by rewrite IH.
Qed.

Lemma string_app_nil_r (a : string) : a +:+ EmptyString = a.
Proof.
  induction a as [|x a IH]; [done|]. rewrite string_app_cons. by rewrite IH.
Qed.

Lemma string_length_app (a b : string) :
  String.length (a +:+ b) = (String.length a + String.length b)%nat.
Proof.
  induction a as [|x a IH]; [done|]. rewrite string_app_cons. simpl. by rewrite IH.
Qed.

Lemma digit_char_cases (d : Z) :
  0 ≤ d < 10 →
  digit_value (digit_char d) = Some d
  ∧ digit_char d ≠ "Z"%char ∧ digit_char d ≠ "+"%char ∧ digit_char d ≠ "-"%char.
Proof.
  intros Hd.
  assert (H : d = 0 ∨ d = 1 ∨ d = 2 ∨ d = 3 ∨ d = 4 ∨ d = 5 ∨ d = 6 ∨ d = 7
              ∨ d = 8 ∨ d = 9) by lia.
  destruct H as [->|[->|[->|[->|[->|[->|[->|[->|[->| ->]]]]]]]]]; by vm_compute.
Qed.

Lemma zero_padded_S (n : nat) (x : Z) :
  zero_padded (S n) x
  = zero_padded n (x / 10) +:+ String (digit_char (x mod 10)) EmptyString.
Proof. done. Qed.

Lemma length_zero_padded (n : nat) (x : Z) : String.length (zero_padded n x) = n.
Proof.
  revert x. induction n as [|n IH]; intros x; [done|].
  rewrite zero_padded_S, string_length_app, IH. simpl. lia.
Qed.

(** Reading digits goes through an append. *)
Lemma parse_digits_app (n m : nat) (acc : Z) (s : string) :
  parse_digits (n + m) acc s
  = '(v, rest) ← parse_digits n acc s; parse_digits m v rest.
Proof.
  revert acc s. induction n as [|n IH]; intros acc s; [done|].
  simpl. destruct s as [|c s]; [done|]. destruct (digit_value c); [|done]. apply IH.
Qed.

Lemma parse_zero_padded (n : nat) (x acc : Z) (rest : string) :
  0 ≤ x < 10 ^ Z.of_nat n →
  parse_digits n acc (zero_padded n x +:+ rest) = Some (acc * 10 ^ Z.of_nat n + x, rest).
Proof.
  revert x acc rest. induction n as [|n IH]; intros x acc rest Hx.
  - simpl in *. do 2 f_equal. lia.
  - rewrite zero_padded_S, string_app_assoc.
    replace (S n) with (n + 1)%nat by lia. rewrite parse_digits_app.
    assert (Hpow : 10 ^ Z.of_nat (n + 1) = 10 * 10 ^ Z.of_nat n).
    { rewrite Nat2Z.inj_add, Z.pow_add_r by lia. lia. }
    rewrite Hpow in *.
    rewrite IH by (Z.div_mod_to_equations; lia). simpl.
    destruct (digit_char_cases (x mod 10)) as (-> & _); [Z.div_mod_to_equations; lia|].
    do 2 f_equal. Z.div_mod_to_equations. lia.
Qed.

Lemma avoids_app (bad : ascii → bool) (a b : string) :
  avoids bad a = true → avoids bad b = true → avoids bad (a +:+ b) = true.
Proof.
  intros Ha Hb. induction a as [|c a IH]; [done|].
  rewrite string_app_cons. simpl in *.
  apply andb_true_iff in Ha as [-> Ha]. by rewrite IH.
Qed.

Lemma avoids_zero_padded (bad : ascii → bool) (n : nat) (x : Z) :
  (∀ d, 0 ≤ d < 10 → bad (digit_char d) = false) →
  avoids bad (zero_padded n x) = true.
Proof.
  intros Hbad. revert x. induction n as [|n IH]; intros x; [done|].
  rewrite zero_padded_S. apply avoids_app; [apply IH|].
  simpl. rewrite Hbad; [done|]. Z.div_mod_to_equations. lia.
Qed.

Lemma digits_are_not_Z (d : Z) : 0 ≤ d < 10 → is_Z (digit_char d) = false.
Proof.
  intros Hd. destruct (digit_char_cases d Hd) as (_ & H1 & _).
  by apply bool_decide_eq_false.
Qed.

Lemma digits_are_not_signs (d : Z) : 0 ≤ d < 10 → is_sign (digit_char d) = false.
Proof.
  intros Hd. destruct (digit_char_cases d Hd) as (_ & _ & H2 & H3).
  unfold is_sign. by rewrite !bool_decide_eq_false_2.
Qed.

Lemma replace_app (old : ascii) (new a b : string) :
  replace old new (a +:+ b) = replace old new a +:+ replace old new b.
Proof.
  induction a as [|c a IH]; [done|]. rewrite string_app_cons. simpl. rewrite IH.
  case_decide; [|done]. by rewrite string_app_assoc.
Qed.

Lemma replace_avoids (new s : string) :
  avoids is_Z s = true → replace "Z" new s = s.
Proof.
  induction s as [|c s IH]; [done|]. simpl. unfold is_Z at 1.
  intros [Hc Hs]%andb_true_iff. apply negb_true_iff, bool_decide_eq_false in Hc.
  rewrite decide_False by done. by rewrite IH.
Qed.

Lemma split_at_sign_avoids (a b : string) :
  avoids is_sign a = true →
  split_at_sign (a +:+ b) = (a +:+ (split_at_sign b).1, (split_at_sign b).2).
Proof.
  induction a as [|c a IH].
  - intros _. change (split_at_sign b = ((split_at_sign b).1, (split_at_sign b).2)).
    by destruct (split_at_sign b).
  - simpl. unfold is_sign at 1. intros [Hc Ha]%andb_true_iff.
    apply negb_true_iff, orb_false_iff in Hc as [H2 H3].
    apply bool_decide_eq_false in H2, H3.
    rewrite !string_app_cons. simpl.
    rewrite !decide_False by done. by rewrite IH.
Qed.

Lemma parse_zero_padded_0 (n : nat) (x : Z) (rest : string) :
  0 ≤ x < 10 ^ Z.of_nat n →
  parse_digits n 0 (zero_padded n x +:+ rest) = Some (x, rest).
Proof. intros Hx. by rewrite parse_zero_padded. Qed.

Lemma literal_app (c : ascii) (rest : string) :
  String c EmptyString +:+ rest = String c rest.
Proof. done. Qed.

Lemma expect_cons (c : ascii) (rest : string) : expect c (String c rest) = Some rest.
Proof. simpl. by rewrite decide_True. Qed.

Section Parse.

Local Opaque zero_padded.

Lemma parse_clock_text (h mi s us : Z) :
  0 ≤ h < 100 → 0 ≤ mi < 100 → 0 ≤ s < 100 → 0 ≤ us < 1000000 →
  parse_hh_mm_ss_ff
    (zero_padded 2 h +:+ ":" +:+ zero_padded 2 mi +:+ ":" +:+ zero_padded 2 s
     +:+ fraction_text us)
  = Some (h, mi, s, us).
Proof.
  intros Hh Hmi Hs Hus. unfold parse_hh_mm_ss_ff.
  rewrite parse_zero_padded_0 by done. cbn [mbind option_bind].
  rewrite literal_app, expect_cons. cbn [mbind option_bind].
  rewrite parse_zero_padded_0 by done. cbn [mbind option_bind].
  rewrite literal_app, expect_cons. cbn [mbind option_bind].
  rewrite parse_zero_padded_0 by done. cbn [mbind option_bind].
  unfold fraction_text. destruct (us =? 0) eqn:Hz.
  - apply Z.eqb_eq in Hz. by subst.
  - rewrite literal_app, expect_cons. cbn [mbind option_bind].
    unfold parse_fraction. rewrite length_zero_padded.
    rewrite <- (string_app_nil_r (zero_padded 6 us)), parse_zero_padded_0 by done.
    done.
Qed.

End Parse.

Lemma isoformat_naive (t : datetime) :
  tzinfo t = None →
  isoformat t
  = date_text (year t) (month t) (day t) +:+ "T"
    +:+ clock_text (hour t) (minute t) (second t) (microsecond t).
Proof.
  intros Htz. unfold isoformat, date_text, clock_text, fraction_text. rewrite Htz.
  rewrite string_app_nil_r. by rewrite !string_app_assoc.
Qed.

Lemma clock_text_avoids (bad : ascii → bool) (h mi s us : Z) :
  (∀ d, 0 ≤ d < 10 → bad (digit_char d) = false) →
  bad ":"%char = false → bad "."%char = false →
  avoids bad (clock_text h mi s us) = true.
Proof.
  intros Hd Hc Hp. unfold clock_text, fraction_text.
  repeat (apply avoids_app;
          [first [by apply avoids_zero_padded | simpl; by rewrite Hc]|]).
  destruct (us =? 0); [done|].
  apply avoids_app; [simpl; by rewrite Hp|by apply avoids_zero_padded].
Qed.

Lemma date_text_avoids_Z (y m d : Z) : avoids is_Z (date_text y m d) = true.
Proof.
  unfold date_text.
  repeat (apply avoids_app;
          [first [apply avoids_zero_padded, digits_are_not_Z | reflexivity]|]).
  apply avoids_zero_padded, digits_are_not_Z.
Qed.

Lemma new_datetime_accepts (t : datetime) (tz : option Z) :
  in_range t → 1 ≤ year t ≤ 9999 →
  new_datetime (year t) (month t) (day t) (hour t) (minute t) (second t)
    (microsecond t) tz
  = Some (mkDatetime (year t) (month t) (day t) (hour t) (minute t) (second t)
            (microsecond t) tz).
Proof.
  intros (Hm & Hd & Hh & Hmi & Hs & Hus) Hy. unfold new_datetime.
  rewrite !(proj2 (Z.leb_le _ _)) by lia. done.
Qed.

Section ParseText.

Local Opaque zero_padded.

Lemma days_in_month_bound (y m : Z) : days_in_month y m ≤ 31.
Proof. unfold days_in_month. repeat case_match; lia. Qed.

Lemma written_timestamp_parsed (t : datetime) :
  reads_documented_format →
  in_range t → 1 ≤ year t ≤ 9999 → tzinfo t = None →
  parsed (isoformat t +:+ "Z")
  = Some (mkDatetime (year t) (month t) (day t) (hour t) (minute t) (second t)
            (microsecond t) (Some 0)).
Proof.
  intros Hdoc Hr Hy Htz. pose proof Hr as (Hm & Hd & Hh & Hmi & Hs & Hus).
  pose proof (days_in_month_bound (year t) (month t)) as Hdim.
  unfold parsed. apply Hdoc. rewrite isoformat_naive by done.
  rewrite !replace_app.
  rewrite (replace_avoids _ (date_text _ _ _)) by apply date_text_avoids_Z.
  rewrite (replace_avoids _ (clock_text _ _ _ _))
    by (apply clock_text_avoids; auto using digits_are_not_Z).
  change (replace "Z" "+00:00" "T") with "T".
  change (replace "Z" "+00:00" "Z") with "+00:00".
  unfold fromisoformat_documented, date_text. rewrite !string_app_assoc.
  rewrite parse_zero_padded_0 by lia. cbn [mbind option_bind].
  rewrite literal_app, expect_cons. cbn [mbind option_bind].
  rewrite parse_zero_padded_0 by lia. cbn [mbind option_bind].
  rewrite literal_app, expect_cons. cbn [mbind option_bind].
  rewrite parse_zero_padded_0 by lia. cbn [mbind option_bind].
  rewrite literal_app.
  rewrite split_at_sign_avoids
    by (by apply clock_text_avoids; auto using digits_are_not_signs).
  change (split_at_sign "+00:00") with (EmptyString, Some ("+"%char, "00:00")).
  cbn [fst snd]. rewrite string_app_nil_r.
  unfold clock_text. rewrite parse_clock_text by lia. cbn [mbind option_bind].
  change (parse_offset "+" "00:00") with (Some 0). cbn [mbind option_bind].
  by apply new_datetime_accepts.
Qed.


End ParseText.


End Library.

(** ** The examples

    The examples are run on an interpreter that reads the documented format
    and nothing else. Their texts are either in that format or such that no
    version reads them (["not-a-date"], ["next week"]). *)

#[global] Existing Instance documented_format.

Lemma documented_format_reads_itself : reads_documented_format.
Proof. intros s t H. exact H. Defined.

(** *** The claims on the example school *)

Lemma active_listing_example :
  let now := isoformat (reading example_school) +:+ "Z" in
  ∃ l,
    get_active_announcements merge_sorter example_school = (Return l, ticked example_school)
    ∧ (rendered (as_dict winter_concert) ∈ l ↔ active_at now (as_dict winter_concert))
    ∧ (∀ a, a ∈ l →
         ∃ A', A' ∈ announcements_collection example_school ∧ a = rendered (as_dict A')
               ∧ active_at now (as_dict A'))
    ∧ (∀ teachers,
         get_active_announcements merge_sorter (with_teachers teachers example_school)
           = (Return l, ticked (with_teachers teachers example_school))).
Proof.
  apply (active_listing_is_the_active_announcements merge_sorter example_school
           winter_concert).
  apply winter_concert_stored.
Defined.

(** The comparison of C1 is the store's, on the texts. A record created
    with the expiration date written with a space, thirteen minutes after
    the clock reading, passes the future check of create and is not listed
    as active by the next call: the space sorts before the T of [now]. *)
Lemma active_listing_compares_texts :
  let created :=
    created_world "Staff meeting" "2026-11-03 23:00:00" "mrodriguez" None empty_school in
  create_announcement "Staff meeting" "2026-11-03 23:00:00" "mrodriguez" None empty_school
    = (Return (created_record "Staff meeting" "2026-11-03 23:00:00" "mrodriguez" None
                 empty_school),
       created)
  ∧ isoformat (reading created) +:+ "Z" = "2026-11-03T22:47:00.000002Z"
  ∧ get_active_announcements merge_sorter created = (Return [], ticked created).
Proof.
  split; [|split].
  - apply (create_success _ _ _ _ _ (mrodriguez_registered _ _ _)
             (mkDatetime 2026 11 3 23 0 0 0 None)); [done..|].
    intros Ht. discriminate Ht.
  - reflexivity.
  - by_evaluation.
Qed.

(** C2, as stated, fails: the expiration date parses and is centuries ahead
    of the clock, the username is registered, and the create is refused for
    its start date. *)
Lemma create_in_future_refused :
  registered "mrodriguez" empty_school
  ∧ parsed "2999-01-01T00:00:00" = Some (mkDatetime 2999 1 1 0 0 0 0 None)
  ∧ wall_microseconds (reading empty_school) + 1000000
      ≤ wall_microseconds (mkDatetime 2999 1 1 0 0 0 0 None)
  ∧ create_announcement "Snow day" "2999-01-01T00:00:00" "mrodriguez"
      (Some "next week") empty_school
    = (Raise InvalidStartFormat, ticked empty_school).
Proof.
  split; [apply mrodriguez_registered|]. split; [done|]. split; [by vm_compute|].
  by_evaluation.
Qed.

(** The clock shows 22:47:00; an expiration date at 22:47:00 is refused and
    one at 22:47:01, a second later, is accepted. *)
Lemma create_checks_expiration_in_future_example :
  (create_announcement "Snow day" "2026-11-03T22:47:00" "mrodriguez" None empty_school
     = (Raise ValidationError, ticked empty_school))
  ∧ ∃ r w',
      create_announcement "Snow day" "2026-11-03T22:47:01" "mrodriguez" None empty_school
        = (Return r, w')
      ∧ r = created_record "Snow day" "2026-11-03T22:47:01" "mrodriguez" None empty_school
      ∧ announcements_collection w'
        = announcements_collection empty_school ++
            [ mkDocument (BOid (object_ids empty_school (ids_drawn empty_school)))
                (new_announcement "Snow day" "2026-11-03T22:47:01" "mrodriguez" None
                   (isoformat (reading (ticked empty_school)) +:+ "Z")) ].
Proof.
  assert (Hnow : in_range (reading empty_school)) by (by vm_compute).
  split.
  - apply (create_checks_expiration_in_future "Snow day" "2026-11-03T22:47:00"
             "mrodriguez" None empty_school (mkDatetime 2026 11 3 22 47 0 0 None));
      [apply mrodriguez_registered|reflexivity|reflexivity|exact Hnow|by vm_compute].
  - apply (create_checks_expiration_in_future "Snow day" "2026-11-03T22:47:01"
             "mrodriguez" None empty_school (mkDatetime 2026 11 3 22 47 1 0 None));
      [apply mrodriguez_registered|reflexivity|reflexivity|exact Hnow|by vm_compute|].
    intros Ht. discriminate Ht.
Defined.

Lemma offset_expiration_raises_TypeError_example :
  datetime_le (mkDatetime 2999 1 1 0 0 0 0 (Some 0)) (reading example_school)
    = Raise TypeError
  ∧ except_ValueError TypeError = false
  ∧ ¬ in_taxonomy TypeError
  ∧ create_announcement "Snow day" "2999-01-01T00:00:00Z" "mrodriguez" None example_school
      = (Raise TypeError, ticked example_school)
  ∧ (∀ obj_id d,
       ObjectId_of_str "616e6e6f756e63652d6f6c64" = Some obj_id →
       d ∈ announcements_collection example_school → doc_id d = BOid obj_id →
       update_announcement "616e6e6f756e63652d6f6c64" "Snow day" "2999-01-01T00:00:00Z"
         "mrodriguez" None example_school
         = (Raise TypeError, ticked example_school)).
Proof.
  apply (offset_expiration_raises_TypeError "616e6e6f756e63652d6f6c64" "Snow day"
           "2999-01-01T00:00:00Z" "mrodriguez" None example_school
           (mkDatetime 2999 1 1 0 0 0 0 (Some 0)) 0).
  - apply mrodriguez_registered.
  - reflexivity.
  - reflexivity.
Defined.

(** The request of the example above, run: the update of a stored record
    with the expiration date written as the wire format prescribes. *)
Lemma update_with_Z_suffix_run :
  update_announcement "616e6e6f756e63652d6f6c64" "Snow day" "2999-01-01T00:00:00Z"
    "mrodriguez" None example_school
  = (Raise TypeError, ticked example_school).
Proof. by_evaluation. Qed.

(** C3, as stated, fails. An expiration date that ends in Z, sent by a
    registered username: the Z becomes "+00:00", the + is read as the
    separator between date and time and "00:00" as the time, so the parse
    is a naive datetime, the future check passes and the record is stored.
    And with an unregistered username the request with a Z-suffixed
    expiration date ends with Unauthorized, an error of the
    specification. *)
Lemma Z_suffix_is_accepted :
  registered "mrodriguez" empty_school
  ∧ replace "Z" "+00:00" "2999-01-01Z" = "2999-01-01+00:00"
  ∧ parsed "2999-01-01Z" = Some (mkDatetime 2999 1 1 0 0 0 0 None)
  ∧ create_announcement "Snow day" "2999-01-01Z" "mrodriguez" None empty_school
    = (Return (created_record "Snow day" "2999-01-01Z" "mrodriguez" None empty_school),
       created_world "Snow day" "2999-01-01Z" "mrodriguez" None empty_school)
  ∧ announcements_collection
      (created_world "Snow day" "2999-01-01Z" "mrodriguez" None empty_school)
    = [ mkDocument (BOid (example_ids 0))
          (new_announcement "Snow day" "2999-01-01Z" "mrodriguez" None
             "2026-11-03T22:47:00.000001Z") ]
  ∧ create_announcement "Snow day" "2999-01-01T00:00:00Z" "stranger" None example_school
    = (Raise Unauthorized, example_school)
  ∧ in_taxonomy Unauthorized.
Proof.
  split; [apply mrodriguez_registered|]. split; [reflexivity|]. split; [reflexivity|].
  split.
  { apply (create_success _ _ _ _ _ (mrodriguez_registered _ _ _)
             (mkDatetime 2999 1 1 0 0 0 0 None)); [done..|].
    intros Ht. discriminate Ht. }
  split; [by_evaluation|].
  split; [apply create_unauthorized, stranger_not_registered|].
  unfold in_taxonomy. constructor.
Qed.

(** The winter concert is moved to the 22nd and loses its start date. *)
Lemma update_replaces_fields_example :
  ∃ c1 c2 d',
    announcements_collection example_school = c1 ++ winter_concert :: c2
    ∧ update_announcement "616e6e6f756e63652d6e6577" "Winter concert (moved)"
        "2026-12-22T00:00:00" "mrodriguez" None example_school
        = (Return (<["_id" := BStr (str (BOid (mkObjectId "announce-new")))]> (as_dict d')),
           with_announcements (c1 ++ d' :: c2) (ticked example_school))
    ∧ as_dict d' !! "message" = Some (BStr "Winter concert (moved)")
    ∧ as_dict d' !! "expiration_date" = Some (BStr "2026-12-22T00:00:00")
    ∧ as_dict d' !! "start_date"
        = (if truthy_str None then Some (BStr (text_of None)) else None)
    ∧ as_dict d' !! "_id" = as_dict winter_concert !! "_id"
    ∧ as_dict d' !! "created_by" = as_dict winter_concert !! "created_by"
    ∧ as_dict d' !! "created_at" = as_dict winter_concert !! "created_at"
    ∧ (∀ k, k ∉ ["message"; "expiration_date"; "start_date"] →
         as_dict d' !! k = as_dict winter_concert !! k).
Proof.
  apply (update_replaces_fields "616e6e6f756e63652d6e6577" "Winter concert (moved)"
           "2026-12-22T00:00:00" "mrodriguez" None example_school
           (mkObjectId "announce-new") winter_concert
           (mkDatetime 2026 12 22 0 0 0 0 None)).
  - apply mrodriguez_registered.
  - reflexivity.
  - apply winter_concert_first.
  - reflexivity.
  - reflexivity.
  - reflexivity.
  - intros Ht. discriminate Ht.
Defined.

Lemma unregistered_is_unauthorized_example :
  get_all_announcements merge_sorter "stranger" example_school
    = (Raise Unauthorized, example_school)
  ∧ create_announcement "Snow day" "2999-01-01T00:00:00" "stranger" None example_school
      = (Raise Unauthorized, example_school)
  ∧ update_announcement "616e6e6f756e63652d6f6c64" "Snow day" "2999-01-01T00:00:00"
      "stranger" None example_school
      = (Raise Unauthorized, example_school)
  ∧ delete_announcement "616e6e6f756e63652d6f6c64" "stranger" example_school
      = (Raise Unauthorized, example_school).
Proof.
  apply (unregistered_is_unauthorized merge_sorter example_school).
  apply stranger_not_registered.
Defined.

(** Requests with dates that no version of [fromisoformat] reads, run on
    the example school. *)
Lemma unparsable_dates_run :
  create_announcement "Snow day" "not-a-date" "mrodriguez" None example_school
    = (Raise InvalidExpirationFormat, example_school)
  ∧ update_announcement "616e6e6f756e63652d6f6c64" "Snow day" "not-a-date" "mrodriguez"
      None example_school
    = (Raise InvalidExpirationFormat, example_school)
  ∧ create_announcement "Snow day" "2999-01-01T00:00:00" "mrodriguez" (Some "next week")
      example_school
    = (Raise InvalidStartFormat, ticked example_school)
  ∧ update_announcement "616e6e6f756e63652d6f6c64" "Snow day" "2999-01-01T00:00:00"
      "mrodriguez" (Some "next week") example_school
    = (Raise InvalidStartFormat, ticked example_school).
Proof. by_evaluation. Qed.

(** The three outcomes of delete, on the example school. *)
Lemma delete_announcement_outcomes_example :
  (ObjectId_of_str "616e6e6f756e63652d6f6c64" = None →
   delete_announcement "616e6e6f756e63652d6f6c64" "mrodriguez" example_school
     = (Raise InvalidIdError, example_school))
  ∧ (∀ obj_id, ObjectId_of_str "616e6e6f756e63652d6f6c64" = Some obj_id →
     (delete_one (by_id (BOid obj_id)) (announcements_collection example_school)).2 = 0 →
     delete_announcement "616e6e6f756e63652d6f6c64" "mrodriguez" example_school
       = (Raise NotFound, example_school))
  ∧ (∀ obj_id, ObjectId_of_str "616e6e6f756e63652d6f6c64" = Some obj_id →
     (delete_one (by_id (BOid obj_id)) (announcements_collection example_school)).2 ≠ 0 →
     ∃ c1 d c2,
       announcements_collection example_school = c1 ++ d :: c2
       ∧ doc_id d = BOid obj_id
       ∧ Forall (fun x => doc_id x ≠ BOid obj_id) c1
       ∧ delete_announcement "616e6e6f756e63652d6f6c64" "mrodriguez" example_school
           = (Return deleted_message, with_announcements (c1 ++ c2) example_school)).
Proof.
  apply (delete_announcement_outcomes "616e6e6f756e63652d6f6c64" "mrodriguez"
           example_school).
  apply mrodriguez_registered.
Defined.

(** The same three outcomes, run. *)
Lemma delete_announcement_run :
  delete_announcement "616e6e6f756e63652d6f6c64" "mrodriguez" example_school
    = (Return deleted_message, with_announcements [winter_concert] example_school)
  ∧ delete_announcement "000000000000000000000000" "mrodriguez" example_school
    = (Raise NotFound, example_school)
  ∧ delete_announcement "science-fair" "mrodriguez" example_school
    = (Raise InvalidIdError, example_school).
Proof. by_evaluation. Qed.

Lemma created_is_listed_example :
  ∃ l,
    get_all_announcements merge_sorter "mrodriguez"
      (created_world "Snow day" "2999-01-01T00:00:00" "mrodriguez" None example_school)
    = (Return l,
       created_world "Snow day" "2999-01-01T00:00:00" "mrodriguez" None example_school)
    ∧ created_record "Snow day" "2999-01-01T00:00:00" "mrodriguez" None example_school ∈ l
    ∧ created_record "Snow day" "2999-01-01T00:00:00" "mrodriguez" None example_school
        !! "message" = Some (BStr "Snow day")
    ∧ created_record "Snow day" "2999-01-01T00:00:00" "mrodriguez" None example_school
        !! "expiration_date" = Some (BStr "2999-01-01T00:00:00")
    ∧ created_record "Snow day" "2999-01-01T00:00:00" "mrodriguez" None example_school
        !! "_id"
      = Some (BStr (str (BOid (object_ids example_school (ids_drawn example_school)))))
    ∧ ∃ d,
        last (announcements_collection
                (created_world "Snow day" "2999-01-01T00:00:00" "mrodriguez" None
                   example_school)) = Some d
        ∧ doc_id d = BOid (object_ids example_school (ids_drawn example_school)).
Proof.
  apply (created_is_listed merge_sorter "Snow day" "2999-01-01T00:00:00" "mrodriguez"
           None example_school).
  - apply (create_success _ _ _ _ _ (mrodriguez_registered _ _ _)
             (mkDatetime 2999 1 1 0 0 0 0 None)); [done..|].
    intros Ht. discriminate Ht.
  - apply mrodriguez_registered.
Defined.

(** The winter concert loses its start date when the update passes the
    empty text. *)
Lemma empty_start_date_run :
  as_dict winter_concert !! "start_date" = Some (BStr "2026-11-01T00:00:00Z")
  ∧ ∃ r d,
      update_announcement "616e6e6f756e63652d6e6577" "Winter concert"
        "2026-12-20T00:00:00" "mrodriguez" (Some EmptyString) example_school
      = (Return r, with_announcements [science_fair; d] (ticked example_school))
      ∧ r !! "start_date" = None
      ∧ as_dict d !! "start_date" = None.
Proof.
  split; [done|].
  exists (<["_id" := BStr "616e6e6f756e63652d6e6577"]>
            (as_dict (updated_document "Winter concert" "2026-12-20T00:00:00"
                        (Some EmptyString) winter_concert))),
    (updated_document "Winter concert" "2026-12-20T00:00:00" (Some EmptyString)
       winter_concert).
  by_evaluation.
Qed.

(** *** The further properties on the example school *)

Lemma example_school_unique_ids : unique_ids (announcements_collection example_school).
Proof.
  unfold unique_ids. apply NoDup_cons. split; [|apply NoDup_singleton].
  intros H%list_elem_of_singleton. discriminate H.
Defined.

Lemma example_id_not_in_use :
  BOid (object_ids example_school (ids_drawn example_school))
  ∉ doc_id <$> announcements_collection example_school.
Proof.
  intros H. apply elem_of_cons in H as [H|H]; [discriminate H|].
  apply list_elem_of_singleton in H. discriminate H.
Defined.

Lemma snow_day_created :
  create_announcement "Snow day" "2999-01-01T00:00:00" "mrodriguez" None example_school
  = (Return (created_record "Snow day" "2999-01-01T00:00:00" "mrodriguez" None
               example_school),
     created_world "Snow day" "2999-01-01T00:00:00" "mrodriguez" None example_school).
Proof.
  apply (create_success _ _ _ _ _ (mrodriguez_registered _ _ _)
           (mkDatetime 2999 1 1 0 0 0 0 None)); [done..|].
  intros Ht. discriminate Ht.
Defined.

Lemma concert_moved :
  update_announcement "616e6e6f756e63652d6e6577" "Winter concert (moved)"
    "2026-12-22T00:00:00" "mrodriguez" None example_school
  = (Return moved_record, school_after_move).
Proof. by_evaluation. Defined.

Lemma concert_moved_again :
  update_announcement "616e6e6f756e63652d6e6577" "Winter concert (moved)"
    "2026-12-22T00:00:00" "mrodriguez" None school_after_move
  = (Return moved_record,
     with_announcements [science_fair; moved_concert] (ticked school_after_move)).
Proof. by_evaluation. Defined.

Lemma science_fair_deleted :
  delete_announcement "616e6e6f756e63652d6f6c64" "mrodriguez" example_school
  = (Return deleted_message, with_announcements [winter_concert] example_school).
Proof. by_evaluation. Defined.

Lemma list_all_is_the_whole_store_example :
  ∃ l,
    get_all_announcements merge_sorter "mrodriguez" example_school
      = (Return l, example_school)
    ∧ l ≡ₚ rendered <$> (as_dict <$> announcements_collection example_school)
    ∧ length l = length (announcements_collection example_school).
Proof.
  apply (list_all_is_the_whole_store merge_sorter "mrodriguez" example_school).
  apply mrodriguez_registered.
Defined.

Lemma active_listing_within_full_listing_example :
  ∃ active everything,
    get_active_announcements merge_sorter example_school
      = (Return active, ticked example_school)
    ∧ get_all_announcements reversed_sorter "mrodriguez" example_school
      = (Return everything, example_school)
    ∧ active ⊆+ everything.
Proof.
  apply (active_listing_within_full_listing merge_sorter reversed_sorter
           "mrodriguez" example_school).
  apply mrodriguez_registered.
Defined.

Lemma update_checks_id_before_dates_example :
  update_announcement "concert" "Winter concert" "not-a-date" "mrodriguez"
    (Some "next week") example_school
  = (Raise InvalidIdError, example_school)
  ∧ update_announcement "616e6e6f756e63652d7a7a7a" "Winter concert" "not-a-date"
      "mrodriguez" (Some "next week") example_school
    = (Raise NotFound, example_school).
Proof.
  split.
  - apply (proj1 (update_checks_id_before_dates "concert" "Winter concert"
                    "not-a-date" "mrodriguez" (Some "next week") example_school
                    (mrodriguez_registered _ _ _))).
    reflexivity.
  - apply (proj2 (update_checks_id_before_dates "616e6e6f756e63652d7a7a7a"
                    "Winter concert" "not-a-date" "mrodriguez" (Some "next week")
                    example_school (mrodriguez_registered _ _ _))
             (mkObjectId "announce-zzz")).
    + reflexivity.
    + intros H. apply elem_of_cons in H as [H|H]; [discriminate H|].
      apply list_elem_of_singleton in H. discriminate H.
Defined.

Lemma ObjectId_text_round_trip_example :
  String.length (str (BOid (example_ids 0))) = 24%nat
  ∧ ObjectId_of_str (str (BOid (example_ids 0))) = Some (example_ids 0).
Proof. apply (ObjectId_text_round_trip (example_ids 0)). reflexivity. Defined.

Lemma create_then_delete_example :
  ∃ id,
    created_record "Snow day" "2999-01-01T00:00:00" "mrodriguez" None example_school
      !! "_id" = Some (BStr id)
    ∧ delete_announcement id "mrodriguez"
        (created_world "Snow day" "2999-01-01T00:00:00" "mrodriguez" None example_school)
      = (Return deleted_message,
         with_announcements (announcements_collection example_school)
           (created_world "Snow day" "2999-01-01T00:00:00" "mrodriguez" None
              example_school)).
Proof.
  apply (create_then_delete "Snow day" "2999-01-01T00:00:00" "mrodriguez" None
           example_school).
  - apply snow_day_created.
  - reflexivity.
  - apply example_id_not_in_use.
  - apply mrodriguez_registered.
Defined.

Lemma handlers_keep_ids_unique_example :
  (BOid (object_ids example_school (ids_drawn example_school))
     ∉ doc_id <$> announcements_collection example_school →
   unique_ids (announcements_collection
                 (create_announcement "Winter concert (moved)" "2026-12-22T00:00:00"
                    "mrodriguez" None example_school).2))
  ∧ unique_ids (announcements_collection
                  (update_announcement "616e6e6f756e63652d6e6577"
                     "Winter concert (moved)" "2026-12-22T00:00:00" "mrodriguez" None
                     example_school).2)
  ∧ unique_ids (announcements_collection
                  (delete_announcement "616e6e6f756e63652d6e6577" "mrodriguez"
                     example_school).2).
Proof.
  apply (handlers_keep_ids_unique "616e6e6f756e63652d6e6577" "Winter concert (moved)"
           "2026-12-22T00:00:00" "mrodriguez" None example_school).
  apply example_school_unique_ids.
Defined.

Lemma deleted_id_is_gone_example :
  delete_announcement "616e6e6f756e63652d6f6c64" "mrodriguez"
    (with_announcements [winter_concert] example_school)
  = (Raise NotFound, with_announcements [winter_concert] example_school)
  ∧ ∀ message expiration_date start_date,
      update_announcement "616e6e6f756e63652d6f6c64" message expiration_date
        "mrodriguez" start_date (with_announcements [winter_concert] example_school)
      = (Raise NotFound, with_announcements [winter_concert] example_school).
Proof.
  apply (deleted_id_is_gone "616e6e6f756e63652d6f6c64" "mrodriguez" example_school
           (with_announcements [winter_concert] example_school) deleted_message).
  - apply example_school_unique_ids.
  - apply science_fair_deleted.
Defined.

Lemma update_is_idempotent_example :
  moved_record = moved_record
  ∧ announcements_collection
      (with_announcements [science_fair; moved_concert] (ticked school_after_move))
    = announcements_collection school_after_move.
Proof.
  apply (update_is_idempotent "616e6e6f756e63652d6e6577" "Winter concert (moved)"
           "2026-12-22T00:00:00" "mrodriguez" None example_school school_after_move).
  - apply concert_moved.
  - apply concert_moved_again.
Defined.

Lemma updated_is_listed_example :
  ∃ l,
    get_all_announcements merge_sorter "mrodriguez" school_after_move
      = (Return l, school_after_move)
    ∧ moved_record ∈ l.
Proof.
  apply (updated_is_listed merge_sorter "616e6e6f756e63652d6e6577"
           "Winter concert (moved)" "2026-12-22T00:00:00" "mrodriguez" None
           example_school).
  - apply concert_moved.
  - apply mrodriguez_registered.
Defined.

Lemma reading_in_range : in_range (reading example_school).
Proof. by vm_compute. Defined.


